(** * photo-calendar: the overlay geometry, the calendar grid, month
    navigation, the filter selection and the export pipeline of
    [src/components/PhotoEditor.tsx] and [CalendarGenerator.tsx].

    JavaScript numbers are modelled by exact numbers: coordinates, sizes and
    scale factors by rationals ([Q]), months, years and day counts by integers
    ([Z]).  The model therefore covers finite, non-NaN values and leaves the
    rounding of binary floating point aside.  What the code asks of Konva,
    of the DOM and of [Date] is modelled from their documented behaviour and
    said so where it is used; what they answer at run time (a thrown error,
    an image that fails to load) is a parameter. *)

From Stdlib Require Import QArith Qminmax Qround Lqa ZArith Lia List String Bool.
Import ListNotations.

(** ** Comparisons of rationals as booleans *)

Definition Qltb (a b : Q) : bool := if Qlt_le_dec a b then true else false.

Definition Qleb (a b : Q) : bool := negb (Qltb b a).

(** ** Overlay geometry (PhotoEditor.tsx) *)

Module Geometry.
Open Scope Q_scope.

(** [photoSize]: the stage dimensions. *)
Record Size := mkSize { size_width : Q; size_height : Q }.

(** [calendarAttrs]: the committed overlay transform. *)
Record Attrs := mkAttrs {
  attr_x : Q;
  attr_y : Q;
  attr_width : Q;
  attr_height : Q;
  attr_id : string
}.

(** The bounding box Konva's Transformer hands to [boundBoxFunc]. *)
Record Box := mkBox {
  box_x : Q;
  box_y : Q;
  box_width : Q;
  box_height : Q;
  box_rotation : Q
}.

(** What the handlers read from the Konva node of the overlay group. *)
Record Node := mkNode {
  node_x : Q;
  node_y : Q;
  node_width : Q;
  node_height : Q;
  node_scaleX : Q;
  node_scaleY : Q
}.

(** [keepCalendarWithinBounds], lines 460-487. *)
Definition keepCalendarWithinBounds (photoSize : Size) (newAttrs : Attrs) : Attrs :=
  let x := attr_x newAttrs in
  let y := attr_y newAttrs in
  let width := attr_width newAttrs in
  let height := attr_height newAttrs in
  let stageWidth := size_width photoSize in
  let stageHeight := size_height photoSize in
  let constrainedX :=
    if Qltb x 0 then 0
    else if Qltb stageWidth (x + width) then Qmax 0 (stageWidth - width)
    else x in
  let constrainedY :=
    if Qltb y 0 then 0
    else if Qltb stageHeight (y + height) then Qmax 0 (stageHeight - height)
    else y in
  {| attr_x := constrainedX;
     attr_y := constrainedY;
     attr_width := attr_width newAttrs;
     attr_height := attr_height newAttrs;
     attr_id := attr_id newAttrs |}.

Definition set_box_x (b : Box) (v : Q) : Box :=
  {| box_x := v; box_y := box_y b; box_width := box_width b;
     box_height := box_height b; box_rotation := box_rotation b |}.
Definition set_box_y (b : Box) (v : Q) : Box :=
  {| box_x := box_x b; box_y := v; box_width := box_width b;
     box_height := box_height b; box_rotation := box_rotation b |}.
Definition set_box_width (b : Box) (v : Q) : Box :=
  {| box_x := box_x b; box_y := box_y b; box_width := v;
     box_height := box_height b; box_rotation := box_rotation b |}.
Definition set_box_height (b : Box) (v : Q) : Box :=
  {| box_x := box_x b; box_y := box_y b; box_width := box_width b;
     box_height := v; box_rotation := box_rotation b |}.

(** The body of the out-of-bounds branch of [boundBoxFunc]: the successive
    assignments to [constrainedBox], lines 889-913. *)
Definition constrainBox (photoSize : Size) (newBox : Box) : Box :=
  let c0 := newBox in
  let c1 :=
    if Qltb (box_x newBox) 0
    then set_box_x (set_box_width c0 (box_width c0 + box_x newBox)) 0
    else c0 in
  let c2 :=
    if Qltb (size_width photoSize) (box_x newBox + box_width newBox)
    then set_box_width c1 (size_width photoSize - box_x newBox)
    else c1 in
  let c3 :=
    if Qltb (box_y newBox) 0
    then set_box_y (set_box_height c2 (box_height c2 + box_y newBox)) 0
    else c2 in
  let c4 :=
    if Qltb (size_height photoSize) (box_y newBox + box_height newBox)
    then set_box_height c3 (size_height photoSize - box_y newBox)
    else c3 in
  let c5 := if Qltb (box_width c4) 50 then set_box_width c4 50 else c4 in
  let c6 := if Qltb (box_height c5) 50 then set_box_height c5 50 else c5 in
  c6.

(** [boundBoxFunc], lines 875-917. *)
Definition boundBoxFunc (photoSize : Size) (oldBox newBox : Box) : Box :=
  if Qltb (box_width newBox) 50 || Qltb (box_height newBox) 50 then oldBox
  else if Qltb (box_x newBox) 0
       || Qltb (box_y newBox) 0
       || Qltb (size_width photoSize) (box_x newBox + box_width newBox)
       || Qltb (size_height photoSize) (box_y newBox + box_height newBox)
  then constrainBox photoSize newBox
  else newBox.

(** [handleTransformEnd], lines 686-721: the attributes it commits. *)
Definition handleTransformEnd (photoSize : Size) (calendarAttrs : Attrs)
    (node : Node) : Attrs :=
  let scaleX := node_scaleX node in
  let scaleY := node_scaleY node in
  let newAttrs :=
    {| attr_x := node_x node;
       attr_y := node_y node;
       attr_width := Qmin (node_width node * scaleX) (size_width photoSize);
       attr_height := Qmin (node_height node * scaleY) (size_height photoSize);
       attr_id := attr_id calendarAttrs |} in
  keepCalendarWithinBounds photoSize newAttrs.

(** [onDragEnd], lines 821-843: the attributes it commits, from the
    position of the dragged node. *)
Definition onDragEnd (photoSize : Size) (calendarAttrs : Attrs)
    (targetX targetY : Q) : Attrs :=
  let newAttrs :=
    {| attr_x := targetX;
       attr_y := targetY;
       attr_width := attr_width calendarAttrs;
       attr_height := attr_height calendarAttrs;
       attr_id := attr_id calendarAttrs |} in
  keepCalendarWithinBounds photoSize newAttrs.

(** The browser window and the decoded photo, as the sizing effect reads
    them. *)
Record Viewport := mkViewport { innerWidth : Q; innerHeight : Q }.

(** [maxWidth] and [maxHeight] of the sizing effect, lines 605-606. *)
Definition maxWidthFor (isMobile : bool) (vp : Viewport) : Q :=
  if isMobile then innerWidth vp * 0.95 else innerWidth vp * 0.8.
Definition maxHeightFor (isMobile : bool) (vp : Viewport) : Q :=
  if isMobile then innerHeight vp * 0.35 else innerHeight vp * 0.6.

(** The [isMobile] state, lines 151 and 171-178. *)
Definition isMobileFor (vp : Viewport) : bool := Qleb (innerWidth vp) 768.

(** The sizing effect, lines 601-644: stage size and overlay placement for
    a loaded photo of [imgWidth] by [imgHeight]. *)
Definition stageFor (isMobile : bool) (vp : Viewport) (imgWidth imgHeight : Q) : Size :=
  let maxWidth := if isMobile then innerWidth vp * 0.95 else innerWidth vp * 0.8 in
  let maxHeight := if isMobile then innerHeight vp * 0.35 else innerHeight vp * 0.6 in
  let width := imgWidth in
  let height := imgHeight in
  let '(width, height) :=
    if Qltb maxWidth width
    then let ratio := maxWidth / width in (maxWidth, height * ratio)
    else (width, height) in
  let '(width, height) :=
    if Qltb maxHeight height
    then let ratio := maxHeight / height in (width * ratio, height * ratio)
    else (width, height) in
  {| size_width := width; size_height := height |}.

Definition placeCalendar (photoSize : Size) (prevAttrs : Attrs) : Attrs :=
  let width := size_width photoSize in
  let height := size_height photoSize in
  let calendarWidth := Qmin (width * 0.6) 600 in
  let aspectRatio := 850 / 1000 in
  let calendarHeight := calendarWidth * aspectRatio in
  let calendarX := (width - calendarWidth) / 2 in
  let calendarY := (height - calendarHeight) / 2 in
  {| attr_x := calendarX;
     attr_y := calendarY;
     attr_width := calendarWidth;
     attr_height := calendarHeight;
     attr_id := attr_id prevAttrs |}.

(** The initial value of the [calendarAttrs] state, lines 129-135. *)
Definition initialAttrs : Attrs :=
  {| attr_x := 50; attr_y := 50; attr_width := 400; attr_height := 350;
     attr_id := "calendar" |}.

(** *** Gestures

    Konva drives the handlers.  A drag ends with the node at some position.
    A resize proposes one candidate box per pointer move; the Transformer
    keeps the box [boundBoxFunc] returns and passes it as [oldBox] of the
    next call, starting from the box of the committed attributes, and leaves
    the node at the position of the last box with the scale that stretches
    the node's own width and height to the box's. *)
Inductive Gesture :=
| Drag (targetX targetY : Q)
| Resize (candidates : list Box).

Definition boxOf (a : Attrs) : Box :=
  {| box_x := attr_x a; box_y := attr_y a; box_width := attr_width a;
     box_height := attr_height a; box_rotation := 0 |}.

Definition resizeBox (photoSize : Size) (a : Attrs) (candidates : list Box) : Box :=
  fold_left (boundBoxFunc photoSize) candidates (boxOf a).

Definition nodeAfterResize (a : Attrs) (b : Box) : Node :=
  {| node_x := box_x b;
     node_y := box_y b;
     node_width := attr_width a;
     node_height := attr_height a;
     node_scaleX := box_width b / attr_width a;
     node_scaleY := box_height b / attr_height a |}.

Definition applyGesture (photoSize : Size) (a : Attrs) (g : Gesture) : Attrs :=
  match g with
  | Drag tx ty => onDragEnd photoSize a tx ty
  | Resize candidates =>
      handleTransformEnd photoSize a
        (nodeAfterResize a (resizeBox photoSize a candidates))
  end.

(** The attributes committed after each gesture of a sequence, in order. *)
Fixpoint committed (photoSize : Size) (a : Attrs) (gs : list Gesture) : list Attrs :=
  match gs with
  | [] => []
  | g :: rest =>
      let a' := applyGesture photoSize a g in
      a' :: committed photoSize a' rest
  end.

(** The invariants of the overlay transform. *)
Definition invariants (photoSize : Size) (a : Attrs) : Prop :=
  0 <= attr_x a /\ 0 <= attr_y a /\
  attr_x a + attr_width a <= size_width photoSize /\
  attr_y a + attr_height a <= size_height photoSize /\
  50 <= attr_width a /\ 50 <= attr_height a.

(** The overlay is no larger than the stage and no smaller than the
    minimum size. *)
Definition sizeFits (photoSize : Size) (a : Attrs) : Prop :=
  50 <= attr_width a /\ attr_width a <= size_width photoSize /\
  50 <= attr_height a /\ attr_height a <= size_height photoSize.

(** Overlay states the editor can be in for a stage: the placement the
    sizing effect computes for a loaded photo, and whatever a gesture
    commits from there. *)
Inductive reachable : Size -> Attrs -> Prop :=
| reach_placed vp imgWidth imgHeight :
    0 < imgWidth -> 0 < imgHeight ->
    0 < innerWidth vp -> 0 < innerHeight vp ->
    reachable (stageFor (isMobileFor vp) vp imgWidth imgHeight)
              (placeCalendar (stageFor (isMobileFor vp) vp imgWidth imgHeight)
                 initialAttrs)
| reach_gesture photoSize a g :
    reachable photoSize a -> reachable photoSize (applyGesture photoSize a g).

(** One coordinate of [keepCalendarWithinBounds]: [constrainedX] from [x],
    [width] and [stageWidth], [constrainedY] likewise. *)
Definition constrained (v size stage : Q) : Q :=
  if Qltb v 0 then 0
  else if Qltb stage (v + size) then Qmax 0 (stage - size)
  else v.

(** A 4000 by 400 panorama opened in a 1600 by 900 desktop window, and the
    overlay the sizing effect places on it. *)
Definition panoramaViewport : Viewport := {| innerWidth := 1600; innerHeight := 900 |}.
Definition panoramaStage : Size :=
  stageFor (isMobileFor panoramaViewport) panoramaViewport 4000 400.
Definition panoramaAttrs : Attrs := placeCalendar panoramaStage initialAttrs.

(** An 800 by 600 stage with the overlay placed on it, and gestures that
    push the overlay out on every side. *)
Definition landscapeStage : Size := {| size_width := 800; size_height := 600 |}.
Definition landscapeAttrs : Attrs := placeCalendar landscapeStage initialAttrs.
Definition wildGestures : list Gesture :=
  [ Drag 900 (-20);
    Resize [ {| box_x := -100; box_y := 580; box_width := 120; box_height := 100;
                box_rotation := 0 |};
             {| box_x := 10; box_y := 10; box_width := 20; box_height := 700;
                box_rotation := 0 |} ];
    Drag (-5) 10000;
    Resize [ {| box_x := -10; box_y := -10; box_width := 900; box_height := 900;
                box_rotation := 0 |} ] ].

End Geometry.

(** ** The calendar grid (CalendarGenerator.tsx) *)

Module Calendar.
Open Scope Z_scope.

(** *** The platform's dates

    [new Date(year, month, date)], [getDay] and [getDate] follow the
    definitions of the ECMAScript specification (Day, DayFromYear,
    YearFromTime, MonthFromTime, DateFromTime, WeekDay, MakeDay, MakeDate,
    TimeClip), on integer arguments.  A time value is a number of
    milliseconds since 1 January 1970; an invalid date, whose fields read as
    NaN, is [None].  Local time is taken equal to UTC: the code builds its
    dates from local fields and reads local fields back, so the offset
    cancels. *)

Definition msPerDay : Z := 86400000.

Definition DaysInYear (y : Z) : Z :=
  if negb (y mod 4 =? 0) then 365
  else if negb (y mod 100 =? 0) then 366
  else if negb (y mod 400 =? 0) then 365
  else 366.

(** The day number of 1 January of year [y]. *)
Definition DayFromYear (y : Z) : Z :=
  365 * (y - 1970) + (y - 1969) / 4 - (y - 1901) / 100 + (y - 1601) / 400.

Definition Day (t : Z) : Z := t / msPerDay.

(** The year a day number falls in: the largest [y] with
    [DayFromYear y <= d], found from an estimate that is off by one at
    most. *)
Definition YearFromDay (d : Z) : Z :=
  let y := 1970 + (400 * d) / 146097 in
  if DayFromYear (y + 1) <=? d then y + 1
  else if d <? DayFromYear y then y - 1
  else y.

Definition YearFromTime (t : Z) : Z := YearFromDay (Day t).

Definition leapFlag (y : Z) : Z := if DaysInYear y =? 366 then 1 else 0.

Definition InLeapYear (t : Z) : Z := leapFlag (YearFromTime t).

Definition DayWithinYear (t : Z) : Z := Day t - DayFromYear (YearFromTime t).

Definition MonthFromTime (t : Z) : Z :=
  let d := DayWithinYear t in
  let leap := InLeapYear t in
  if d <? 31 then 0
  else if d <? 59 + leap then 1
  else if d <? 90 + leap then 2
  else if d <? 120 + leap then 3
  else if d <? 151 + leap then 4
  else if d <? 181 + leap then 5
  else if d <? 212 + leap then 6
  else if d <? 243 + leap then 7
  else if d <? 273 + leap then 8
  else if d <? 304 + leap then 9
  else if d <? 334 + leap then 10
  else 11.

Definition DateFromTime (t : Z) : Z :=
  let d := DayWithinYear t in
  let leap := InLeapYear t in
  match MonthFromTime t with
  | 0 => d + 1
  | 1 => d - 30
  | 2 => d - 58 - leap
  | 3 => d - 89 - leap
  | 4 => d - 119 - leap
  | 5 => d - 150 - leap
  | 6 => d - 180 - leap
  | 7 => d - 211 - leap
  | 8 => d - 242 - leap
  | 9 => d - 272 - leap
  | 10 => d - 303 - leap
  | _ => d - 333 - leap
  end.

Definition WeekDay (t : Z) : Z := (Day t + 4) mod 7.

(** Days of the year before the first of month [mn] (0-11). *)
Definition daysBeforeMonth (leap mn : Z) : Z :=
  match mn with
  | 0 => 0
  | 1 => 31
  | 2 => 59 + leap
  | 3 => 90 + leap
  | 4 => 120 + leap
  | 5 => 151 + leap
  | 6 => 181 + leap
  | 7 => 212 + leap
  | 8 => 243 + leap
  | 9 => 273 + leap
  | 10 => 304 + leap
  | _ => 334 + leap
  end.

(** The day number of day [date] of month [month] of [year]; months past
    11 run into the next years and day 0 is the day before day 1. *)
Definition MakeDay (year month date : Z) : Z :=
  let ym := year + month / 12 in
  let mn := month mod 12 in
  let leap := leapFlag ym in
  DayFromYear ym + daysBeforeMonth leap mn + date - 1.

Definition MakeDate (day time : Z) : Z := day * msPerDay + time.

Definition TimeClip (t : Z) : option Z :=
  if Z.abs t <=? 8640000000000000 then Some t else None.

(** The constructor reads a year from 0 to 99 as 1900 + year. *)
Definition fullYear (year : Z) : Z :=
  if (0 <=? year) && (year <=? 99) then 1900 + year else year.

(** [new Date(year, month, date)]. *)
Definition newDate (year month date : Z) : option Z :=
  let yr := fullYear year in
  TimeClip (MakeDate (MakeDay yr month date) 0).

Definition getDay (d : option Z) : option Z := option_map WeekDay d.
Definition getDate (d : option Z) : option Z := option_map DateFromTime d.

(** *** The day grid of [renderCalendar], lines 153-203 *)

(** The values of a loop [for (let i = 0; i < n; i++)]. *)
Definition range (n : nat) : list Z := map Z.of_nat (seq 0 n).

(** A day number drawn in the grid: its cell, the number, and the fill
    colour. *)
Record DayCell := mkDayCell {
  cell_row : Z;
  cell_col : Z;
  cell_day : Z;
  cell_fill : string
}.

(** [firstDay] and [daysInMonth], lines 154-155. *)
Definition firstDayOf (year month : Z) : option Z := getDay (newDate year month 1).
Definition daysInMonthOf (year month : Z) : option Z :=
  getDate (newDate year (month + 1) 0).

(** The test of line 171 on [dayNum] of line 167: the number to draw in
    cell (row, col), if any.  A comparison with NaN is false. *)
Definition drawsDay (firstDay daysInMonth : option Z) (row col : Z) : option Z :=
  match firstDay, daysInMonth with
  | Some fd, Some dim =>
      let dayNum := row * 7 + col - fd + 1 in
      if (0 <? dayNum) && (dayNum <=? dim) then Some dayNum else None
  | _, _ => None
  end.

(** The body of the inner loop, lines 167-201. *)
Definition drawCell (fontColor : string) (firstDay daysInMonth : option Z)
    (row col : Z) : list DayCell :=
  match drawsDay firstDay daysInMonth row col with
  | Some dayNum =>
      [ {| cell_row := row; cell_col := col; cell_day := dayNum;
           cell_fill := if (col =? 0) || (col =? 6) then "#e63946"%string
                        else fontColor |} ]
  | None => []
  end.

(** The two loops, lines 163-203: the day numbers drawn, in drawing order. *)
Definition gridCells (fontColor : string) (firstDay daysInMonth : option Z)
    : list DayCell :=
  flat_map (fun row =>
    flat_map (fun col => drawCell fontColor firstDay daysInMonth row col) (range 7))
    (range 6).

Definition renderCalendar (fontColor : string) (year month : Z) : list DayCell :=
  let firstDay := firstDayOf year month in
  let daysInMonth := daysInMonthOf year month in
  gridCells fontColor firstDay daysInMonth.

(** The length of month [month] (0-11) of [year] in the civil calendar. *)
Definition monthLength (year month : Z) : Z :=
  match month with
  | 1 => if DaysInYear year =? 366 then 29 else 28
  | 3 | 5 | 8 | 10 => 30
  | _ => 31
  end.

(** [getMonthName], lines 232-238: indexing the array outside 0..11 gives
    [undefined]. *)
Definition monthNames : list string :=
  [ "January"; "February"; "March"; "April"; "May"; "June";
    "July"; "August"; "September"; "October"; "November"; "December" ]%string.

Definition getMonthName (monthIndex : Z) : option string :=
  if monthIndex <? 0 then None else nth_error monthNames (Z.to_nat monthIndex).

(** [getDayNames], lines 240-242. *)
Definition getDayNames : list string :=
  [ "Sun"; "Mon"; "Tue"; "Wed"; "Thu"; "Fri"; "Sat" ]%string.

(** The logical canvas and the layout constants, lines 76-77, 119-120 and
    158-159. *)
Definition canvasWidth : Q := 1000.
Definition canvasHeight : Q := 850.
Definition cellWidth : Q := 1000 / 7.
Definition headerY : Q := 200.
Definition startY : Q := 230.
Definition cellHeight : Q := 100.

(** A weekday label of the header row, lines 123-151: its text, the [x] of
    its anchor and its fill colour. *)
Record HeaderLabel := mkHeaderLabel {
  label_text : string;
  label_x : Q;
  label_fill : string
}.

Definition headerLabel (fontColor : string) (index : Z) (day : string) : HeaderLabel :=
  {| label_text := day;
     label_x := (inject_Z index * cellWidth + cellWidth / 2)%Q;
     label_fill := if (index =? 0) || (index =? 6) then "#e63946"%string else fontColor |}.

Definition headerLabels (fontColor : string) : list HeaderLabel :=
  map (fun p => headerLabel fontColor (Z.of_nat (fst p)) (snd p))
      (combine (seq 0 (List.length getDayNames)) getDayNames).

(** The anchor of the day number of cell (row, col), lines 164, 168 and
    193-194. *)
Definition dayTextX (col : Z) : Q := (inject_Z col * cellWidth + cellWidth / 2)%Q.
Definition dayTextY (row : Z) : Q := (startY + inject_Z row * cellHeight + 50)%Q.

(** The years all of whose days are valid time values (the time value of a
    date is limited to 100 000 000 days on either side of 1970). *)
Definition validYear (year : Z) : Prop := -271820 <= year <= 275759.

(** *** The civil calendar of the specification

    [firstWeekday] and [daysInMonth] as the specification words them, for
    the year as written and with no limit on it: the weekday (0 for
    Sunday) of day 1 of the month, by Zeller's congruence for the Gregorian
    calendar, and the number of days of the month.  Neither goes through
    the platform's dates. *)
Definition zellerWeekday (year month day : Z) : Z :=
  let m := if month <? 2 then month + 13 else month + 1 in
  let y := if month <? 2 then year - 1 else year in
  let K := y mod 100 in
  let J := y / 100 in
  (day + (13 * (m + 1)) / 5 + K + K / 4 + J / 4 + 5 * J + 6) mod 7.

Definition firstWeekday (month year : Z) : Z := zellerWeekday year month 1.

Definition daysInMonth (month year : Z) : Z := monthLength year month.

End Calendar.


(** ** Month navigation (PhotoEditor.tsx) *)

Module Navigation.
Open Scope Z_scope.

(** [changeMonth], lines 428-442: the new [(calendarMonth, calendarYear)]. *)
Definition changeMonth (calendarMonth calendarYear delta : Z) : Z * Z :=
  let newMonth := calendarMonth + delta in
  let newYear := calendarYear in
  if 11 <? newMonth then (0, newYear + 1)
  else if newMonth <? 0 then (11, newYear - 1)
  else (newMonth, newYear).

(** The state after a sequence of clicks on the navigation buttons, each
    passing its delta to [changeMonth]. *)
Definition navigate (state : Z * Z) (deltas : list Z) : Z * Z :=
  fold_left (fun st delta => changeMonth (fst st) (snd st) delta) deltas state.

End Navigation.

(** ** Filter selection (PhotoEditor.tsx) *)

Module Filter.
Open Scope string_scope.

(** An entry of [PHOTO_FILTERS]; [filter_style] is [style.filter], absent
    for the empty style object. *)
Record PhotoFilter := mkPhotoFilter {
  filter_name : string;
  filter_value : string;
  filter_style : option string
}.

Definition PHOTO_FILTERS : list PhotoFilter :=
  [ {| filter_name := "None"; filter_value := "none"; filter_style := None |};
    {| filter_name := "Clarendon"; filter_value := "clarendon";
       filter_style := Some "contrast(1.2) saturate(1.35) brightness(1.1)" |};
    {| filter_name := "Gingham"; filter_value := "gingham";
       filter_style := Some "brightness(1.05) hue-rotate(-10deg) sepia(0.2)" |};
    {| filter_name := "Juno"; filter_value := "juno";
       filter_style := Some "sepia(0.35) contrast(1.15) brightness(1.15) saturate(1.8)" |} ].

(** [PHOTO_FILTERS.find(f => f.value === selectedFilter)]. *)
Definition findFilter (selectedFilter : string) : option PhotoFilter :=
  find (fun f => String.eqb (filter_value f) selectedFilter) PHOTO_FILTERS.

(** JavaScript truthiness of a [string | null]. *)
Definition truthy (s : option string) : bool :=
  match s with
  | Some v => negb (String.eqb v "")
  | None => false
  end.

(** What happens to the image the filter effect loads for baking. *)
Inductive Baking :=
| BakeImageError                       (* [img.onerror] fires *)
| BakeNoContext                        (* a [getContext] returns null *)
| BakeThrows                           (* drawing or [toDataURL] throws *)
| BakeDataUrl (dataUrl : string)       (* [tempCanvas.toDataURL] returns *)
| BakeNeverLoads.                      (* neither [onload] nor [onerror] *)

(** The calls of [setFilteredImage] the image callbacks make. *)
Definition bakingWrites (filter : PhotoFilter) (baking : Baking) : list (option string) :=
  match baking with
  | BakeImageError => [None]
  | BakeNoContext => [None]
  | BakeThrows => [None]
  | BakeDataUrl dataUrl =>
      match filter_style filter with
      | None => [None]
      | Some filterStyle => if String.eqb filterStyle "" then [None] else [Some dataUrl]
      end
  | BakeNeverLoads => []
  end.

(** The filter effect, lines 490-596: the successive arguments of
    [setFilteredImage], in order, for one run of the effect with the
    callbacks it registers.  [filteredImage] is the state the effect's
    closure sees; [timeoutFirst] tells whether the 3 s timer fires before the
    image callbacks.  The callbacks of an earlier run are cancelled by its
    cleanup, lines 590-594. *)
Definition filterEffectWrites (userImage selectedFilter : string) (isIOSDevice : bool)
    (baking : Baking) (timeoutFirst : bool) (filteredImage : option string)
    : list (option string) :=
  if String.eqb userImage "" then []
  else
    match findFilter selectedFilter with
    | None => [None]
    | Some filter =>
        if String.eqb selectedFilter "none" then [None]
        else if isIOSDevice then [None]
        else
          let timeoutWrites := if truthy filteredImage then [] else [None] in
          if timeoutFirst
          then timeoutWrites ++ bakingWrites filter baking
          else bakingWrites filter baking ++ timeoutWrites
    end.

(** The [filteredImage] state after the run. *)
Definition filterEffect (userImage selectedFilter : string) (isIOSDevice : bool)
    (baking : Baking) (timeoutFirst : bool) (filteredImage : option string)
    : option string :=
  last (filterEffectWrites userImage selectedFilter isIOSDevice baking timeoutFirst
          filteredImage) filteredImage.

(** [filteredImage || userImage], line 599: the source of [displayImage]. *)
Definition displaySource (filteredImage : option string) (userImage : string) : string :=
  match filteredImage with
  | Some v => if String.eqb v "" then userImage else v
  | None => userImage
  end.

(** The filter style spread on the photo node, lines 756-759. *)
Definition photoNodeFilter (isIOSDevice : bool) (filteredImage : option string)
    (selectedFilter : string) : option string :=
  if isIOSDevice || (negb (truthy filteredImage) && negb (String.eqb selectedFilter "none"))
  then match findFilter selectedFilter with
       | Some f => filter_style f
       | None => None
       end
  else None.

(** [currentFilterStyle], lines 724-728. *)
Definition currentFilterStyle (selectedFilter : string) : option string :=
  if String.eqb selectedFilter "none" then None
  else match findFilter selectedFilter with
       | Some f => filter_style f
       | None => None
       end.

(** The style of the canvas container, line 734. *)
Definition containerFilter (isIOSDevice : bool) (selectedFilter : string) : option string :=
  if isIOSDevice then currentFilterStyle selectedFilter else None.

(** The [ctx.filter] the manual composite sets before it draws the photo,
    lines 310-315. *)
Definition exportContextFilter (selectedFilter : string) : option string :=
  if negb (String.eqb selectedFilter "none") then
    match findFilter selectedFilter with
    | Some f =>
        match filter_style f with
        | Some filterStyle => if String.eqb filterStyle "" then None else Some filterStyle
        | None => None
        end
    | None => None
    end
  else None.

End Filter.

(** ** The export pipeline (PhotoEditor.tsx, [getCleanRender]) *)

Module Compositor.
Import Geometry.
Open Scope Q_scope.

(** [exportPixelRatio], lines 207-220. *)
Definition exportPixelRatio (isMobile : bool) (screenWidth : Q) : Q :=
  if isMobile then
    if Qleb screenWidth 375 then 8
    else if Qleb screenWidth 428 then 7
    else if Qleb screenWidth 768 then 6
    else 3
  else 3.

(** The size given to the off-screen canvas, lines 257-277:
    [(finalWidth, finalHeight)]. *)
Definition offscreenSize (stageWidth stageHeight exportPixelRatio : Q) : Q * Q :=
  let targetWidth := stageWidth * exportPixelRatio in
  let targetHeight := stageHeight * exportPixelRatio in
  let maxDimension := 4096 in
  if Qltb maxDimension targetWidth || Qltb maxDimension targetHeight then
    let scaleFactor := Qmin (maxDimension / targetWidth) (maxDimension / targetHeight) in
    (targetWidth * scaleFactor, targetHeight * scaleFactor)
  else (targetWidth, targetHeight).

(** The canvas keeps the integer part of a value assigned to its [width] or
    [height] (for values from 0 up to 2^32). *)
Definition canvasDimension (v : Q) : Z := Qfloor v.

(** An [HTMLImageElement] as [ensureImageLoaded] observes it. *)
Inductive LoadEvent := FiresLoad | FiresError | FiresNothing.

Record ImageElement := mkImageElement {
  img_complete : bool;
  img_naturalWidth : Z;
  img_event : LoadEvent;          (* what fires while the promise waits *)
  img_completeAtTimeout : bool    (* [image.complete], 3 s later *)
}.

Inductive Loaded := LoadResolves | LoadRejects | LoadPending.

(** [ensureImageLoaded], lines 90-124, for an image that is present. *)
Definition ensureImageLoaded (image : ImageElement) : Loaded :=
  if img_complete image && (0 <? img_naturalWidth image)%Z then LoadResolves
  else
    match img_event image with
    | FiresLoad => LoadResolves
    | FiresError => LoadRejects
    | FiresNothing =>
        if negb (img_completeAtTimeout image) then LoadRejects else LoadPending
    end.

(** What the export reads from the component and what the platform answers
    to its calls.  A [None] for a [toDataURL] stands for a thrown error.
    The statements between the direct capture and the inner [try] (reading
    the stage size, creating the canvas and its context, sizing it, filling
    it) sit in the outer [try]: [sizingThrows] and [fillThrows] tell whether
    one of them throws, before the canvas is sized or while it is filled. *)
Record Env := mkEnv {
  stagePresent : bool;                  (* [stageRef.current] is set *)
  isMobile : bool;
  isIOSDevice : bool;
  isAndroidDevice : bool;
  screenWidth : Q;                      (* [window.innerWidth] *)
  stageWidth : Q;
  stageHeight : Q;
  calendarAttrs : Attrs;
  selectedFilter : string;
  directCapture : option string;        (* [stage.toDataURL] at the export ratio *)
  simpleCapture : option string;        (* [stage.toDataURL] at the reduced ratio *)
  contextAvailable : bool;              (* [getContext('2d')] is not null *)
  displayImage : option ImageElement;
  calendarImage : option ImageElement;
  drawPhotoThrows : bool;
  drawCalendarThrows : bool;
  canvasEncode : option string;         (* [offscreenCanvas.toDataURL] *)
  sizingThrows : bool;                  (* a statement of lines 246-277 throws *)
  fillThrows : bool                     (* the fill of lines 285-286 throws *)
}.

(** What the export does to the component and the platform, in order. *)
Inductive Event :=
| EvSetIsSelected (b : bool)
| EvTimeout (ms : Z)
| EvStageToDataURL (pixelRatio : Q)
| EvCanvasSize (finalWidth finalHeight : Q)
| EvFillBackground
| EvDrawPhoto (filter : option string) (dw dh : Q)
| EvDrawCalendar (calX calY calWidth calHeight : Q)
| EvCanvasToDataURL (result : option string).

(** How an [async] function or a promise ends. *)
Inductive Settled :=
| Resolved (dataUrl : string)
| Rejected (message : string)
| Pending.

(** A piece of [captureCanvas]: the steps it takes and how it ends. *)
Definition Run : Type := list Event * Settled.

Definition done (s : Settled) : Run := ([], s).

(** The steps [evs], then the run [r]. *)
Definition after (evs : list Event) (r : Run) : Run := (evs ++ fst r, snd r).

(** Lines 355-365: encode the off-screen canvas and validate its size. *)
Definition encodeCanvas (env : Env) (fallbackDataUrl : string) : Run :=
  after [EvCanvasToDataURL (canvasEncode env)]
    match canvasEncode env with
    | None => done (Resolved fallbackDataUrl)
    | Some highQualityDataUrl =>
        if (Z.of_nat (String.length highQualityDataUrl) <? 10000)%Z
        then done (Resolved fallbackDataUrl)
        else done (Resolved highQualityDataUrl)
    end.

(** Lines 327-353: draw the calendar, when there is one, then encode. *)
Definition drawCalendar (env : Env) (fallbackDataUrl : string) (scaleX scaleY : Q) : Run :=
  match calendarImage env with
  | None => encodeCanvas env fallbackDataUrl
  | Some calendar =>
      match ensureImageLoaded calendar with
      | LoadPending => done Pending
      | LoadRejects => done (Resolved fallbackDataUrl)
      | LoadResolves =>
          let calX := attr_x (calendarAttrs env) * scaleX in
          let calY := attr_y (calendarAttrs env) * scaleY in
          let calWidth := attr_width (calendarAttrs env) * scaleX in
          let calHeight := attr_height (calendarAttrs env) * scaleY in
          after [EvDrawCalendar calX calY calWidth calHeight]
            (if drawCalendarThrows env then done (Resolved fallbackDataUrl)
             else encodeCanvas env fallbackDataUrl)
      end
  end.

(** The drawing part of the manual composite, lines 291-369, entered with
    the direct capture kept as [fallbackDataUrl]; a rejected load or a throw
    lands in its [catch], which returns the fallback. *)
Definition manualDrawing (env : Env) (fallbackDataUrl : string)
    (finalWidth finalHeight : Q) : Run :=
  match displayImage env with
  | None => done (Resolved fallbackDataUrl)
  | Some photo =>
      match ensureImageLoaded photo with
      | LoadPending => done Pending
      | LoadRejects => done (Resolved fallbackDataUrl)
      | LoadResolves =>
          let scaleX := finalWidth / stageWidth env in
          let scaleY := finalHeight / stageHeight env in
          after [EvDrawPhoto (Filter.exportContextFilter (selectedFilter env))
                   finalWidth finalHeight]
            (if drawPhotoThrows env then done (Resolved fallbackDataUrl)
             else drawCalendar env fallbackDataUrl scaleX scaleY)
      end
  end.

(** The outer [catch], lines 370-386: one more stage capture, at the
    reduced ratio. *)
Definition retryCapture (env : Env) (exportPixelRatio : Q) : Run :=
  after [EvStageToDataURL (Qmin 4 exportPixelRatio)]
    match simpleCapture env with
    | Some simpleDataUrl => done (Resolved simpleDataUrl)
    | None => done (Rejected "Failed to export image")
    end.

(** [captureCanvas], lines 224-387.  A throw of the direct capture or of
    the canvas set-up that follows it lands in the outer [catch]. *)
Definition captureCanvas (env : Env) (exportPixelRatio : Q) : Run :=
  after [EvStageToDataURL exportPixelRatio]
    match directCapture env with
    | Some dataUrl =>
        if negb (isMobile env || isIOSDevice env || isAndroidDevice env)
        then done (Resolved dataUrl)
        else
          let fallbackDataUrl := dataUrl in
          if sizingThrows env then retryCapture env exportPixelRatio
          else
            let '(finalWidth, finalHeight) :=
              offscreenSize (stageWidth env) (stageHeight env) exportPixelRatio in
            after [EvCanvasSize finalWidth finalHeight]
              (if negb (contextAvailable env) then done (Resolved fallbackDataUrl)
               else if fillThrows env then retryCapture env exportPixelRatio
               else after [EvFillBackground]
                      (manualDrawing env fallbackDataUrl finalWidth finalHeight))
    | None => retryCapture env exportPixelRatio
    end.

(** The component state the export touches, with the log of its steps. *)
Record State := mkState { isSelected : bool; log : list Event }.

Definition record (evs : list Event) (st : State) : State :=
  {| isSelected := isSelected st; log := log st ++ evs |}.

Definition setIsSelected (b : bool) (st : State) : State :=
  {| isSelected := b; log := log st ++ [EvSetIsSelected b] |}.

(** [getCleanRender], lines 182-414: the component state afterwards and how
    the returned promise ends. *)
Definition getCleanRender (env : Env) (st : State) : State * Settled :=
  if negb (stagePresent env) then (st, Rejected "Stage reference is null")
  else
    let wasSelected := isSelected st in
    let st := if wasSelected then setIsSelected false st else st in
    let st := record [EvTimeout 300] st in
    let ratio := exportPixelRatio (isMobile env) (screenWidth env) in
    let '(steps, captured) := captureCanvas env ratio in
    let st := record steps st in
    match captured with
    | Resolved dataUrl =>
        let st := if wasSelected then setIsSelected true st else st in
        (st, Resolved dataUrl)
    | Rejected error =>
        let st := if wasSelected then setIsSelected true st else st in
        (st, Rejected error)
    | Pending => (st, Pending)
    end.

(** Steps that read or draw the scene. *)
Definition isCapture (e : Event) : bool :=
  match e with
  | EvSetIsSelected _ | EvTimeout _ => false
  | _ => true
  end.

(** Steps that write the selection state. *)
Definition writesSelection (e : Event) : bool :=
  match e with
  | EvSetIsSelected _ => true
  | _ => false
  end.

(** The selection state after the steps of a log. *)
Fixpoint selectionAfter (selected : bool) (evs : list Event) : bool :=
  match evs with
  | [] => selected
  | EvSetIsSelected b :: rest => selectionAfter b rest
  | _ :: rest => selectionAfter selected rest
  end.

(** Scans a log: every capture step must find the overlay deselected and a
    timer elapsed since the selection was last written. *)
Fixpoint guarded (selected waited : bool) (evs : list Event) : bool :=
  match evs with
  | [] => true
  | EvSetIsSelected b :: rest => guarded b false rest
  | EvTimeout _ :: rest => guarded selected true rest
  | _ :: rest => negb selected && waited && guarded selected waited rest
  end.

(** The platforms that get the manual composite: the test of line 236. *)
Definition touchPlatform (env : Env) : bool :=
  isMobile env || isIOSDevice env || isAndroidDevice env.

(** Whether the outer [catch] runs: the direct capture throws, or, on a
    touch platform, the canvas set-up after it does. *)
Definition retries (env : Env) : bool :=
  match directCapture env with
  | None => true
  | Some _ =>
      touchPlatform env && (sizingThrows env || (contextAvailable env && fillThrows env))
  end.

(** An image for which [ensureImageLoaded] never settles: nothing fires,
    the timer finds it complete, and it was not complete with a natural
    width at the start. *)
Definition stuck (img : ImageElement) : Prop :=
  img_event img = FiresNothing /\ img_completeAtTimeout img = true /\
  (img_complete img = false \/ (img_naturalWidth img <= 0)%Z).

(** A phone in portrait: the direct capture succeeds and the manual
    composite encodes to a short data URL. *)
Definition phoneEnv : Env :=
  {| stagePresent := true;
     isMobile := true;
     isIOSDevice := true;
     isAndroidDevice := false;
     screenWidth := 390;
     stageWidth := 370.5;
     stageHeight := 277.875;
     calendarAttrs := {| attr_x := 74.1; attr_y := 44.45; attr_width := 222.3;
                         attr_height := 188.955; attr_id := "calendar" |};
     selectedFilter := "juno";
     directCapture := Some "data:image/png;base64,direct"%string;
     simpleCapture := None;
     contextAvailable := true;
     displayImage := Some {| img_complete := true; img_naturalWidth := 4000;
                             img_event := FiresNothing; img_completeAtTimeout := true |};
     calendarImage := Some {| img_complete := true; img_naturalWidth := 4000;
                              img_event := FiresNothing; img_completeAtTimeout := true |};
     drawPhotoThrows := false;
     drawCalendarThrows := false;
     canvasEncode := Some "data:image/png;base64,iVBORw0KGgo="%string;
     sizingThrows := false;
     fillThrows := false |}.

(** The same phone with a calendar image that is complete but broken (no
    natural width): its load never settles. *)
Definition stuckEnv : Env :=
  {| stagePresent := true;
     isMobile := true;
     isIOSDevice := true;
     isAndroidDevice := false;
     screenWidth := 390;
     stageWidth := 370.5;
     stageHeight := 277.875;
     calendarAttrs := calendarAttrs phoneEnv;
     selectedFilter := "juno";
     directCapture := Some "data:image/png;base64,direct"%string;
     simpleCapture := None;
     contextAvailable := true;
     displayImage := displayImage phoneEnv;
     calendarImage := Some {| img_complete := true; img_naturalWidth := 0;
                              img_event := FiresNothing; img_completeAtTimeout := true |};
     drawPhotoThrows := false;
     drawCalendarThrows := false;
     canvasEncode := None;
     sizingThrows := false;
     fillThrows := false |}.

(** The phone when sizing the off-screen canvas throws after the direct
    capture: the retry capture decides, and it throws with
    [retry := None]. *)
Definition canvasFailsEnv (retry : option string) : Env :=
  {| stagePresent := true;
     isMobile := true;
     isIOSDevice := true;
     isAndroidDevice := false;
     screenWidth := 390;
     stageWidth := 370.5;
     stageHeight := 277.875;
     calendarAttrs := calendarAttrs phoneEnv;
     selectedFilter := "juno";
     directCapture := Some "data:image/png;base64,direct"%string;
     simpleCapture := retry;
     contextAvailable := true;
     displayImage := displayImage phoneEnv;
     calendarImage := calendarImage phoneEnv;
     drawPhotoThrows := false;
     drawCalendarThrows := false;
     canvasEncode := canvasEncode phoneEnv;
     sizingThrows := true;
     fillThrows := false |}.

(** A desktop browser, where the direct capture succeeds or, with
    [captures := None], where every stage capture throws. *)
Definition desktopEnv (captures : option string) : Env :=
  {| stagePresent := true;
     isMobile := false;
     isIOSDevice := false;
     isAndroidDevice := false;
     screenWidth := 1600;
     stageWidth := 800;
     stageHeight := 600;
     calendarAttrs := landscapeAttrs;
     selectedFilter := "none";
     directCapture := captures;
     simpleCapture := captures;
     contextAvailable := true;
     displayImage := displayImage phoneEnv;
     calendarImage := calendarImage phoneEnv;
     drawPhotoThrows := false;
     drawCalendarThrows := false;
     canvasEncode := None;
     sizingThrows := false;
     fillThrows := false |}.

End Compositor.

(** ** The download action (App.tsx) *)

Module App.
Import Compositor.
Open Scope string_scope.

(** The state of [App] the download touches, and the files handed to
    [saveAs] (data and name), oldest first. *)
Record AppState := mkAppState {
  error : option string;
  isDownloading : bool;
  saved : list (string * string)
}.

Definition setError (e : option string) (app : AppState) : AppState :=
  {| error := e; isDownloading := isDownloading app; saved := saved app |}.

Definition setIsDownloading (b : bool) (app : AppState) : AppState :=
  {| error := error app; isDownloading := b; saved := saved app |}.

Definition saveAs (data name : string) (app : AppState) : AppState :=
  {| error := error app; isDownloading := isDownloading app;
     saved := saved app ++ [(data, name)] |}.

(** [handleDownload], lines 30-53.  [refsSet] tells whether both refs are
    set, [saveThrows] whether [saveAs] throws; the editor runs
    [getCleanRender] in environment [env] from its state [editor].  While
    the awaited promise is pending nothing after the [await] runs. *)
Definition handleDownload (refsSet saveThrows : bool) (env : Env) (editor : State)
    (app : AppState) : AppState * State :=
  if negb refsSet
  then (setError (Some "The editor isn't ready yet. Please try again.") app, editor)
  else
    let app := setError None app in
    let app := setIsDownloading true app in
    let '(editor, settled) := getCleanRender env editor in
    match settled with
    | Resolved cleanImage =>
        if saveThrows
        then (setIsDownloading false
                (setError (Some "Failed to download the image. Please try again.") app),
              editor)
        else (setIsDownloading false (saveAs cleanImage "photo-calendar.png" app), editor)
    | Rejected _ =>
        (setIsDownloading false
           (setError (Some "Failed to download the image. Please try again.") app),
         editor)
    | Pending => (app, editor)
    end.

End App.

(** * Properties *)

(** ** Rational comparisons *)

Lemma Qltb_true (a b : Q) : Qltb a b = true <-> (a < b)%Q.
Proof.
  unfold Qltb. destruct (Qlt_le_dec a b) as [H | H]; split; intro K;
    try reflexivity; try assumption; try discriminate.
  exfalso. apply (Qlt_irrefl a). apply Qlt_le_trans with b; assumption.
Qed.

Lemma Qltb_false (a b : Q) : Qltb a b = false <-> (b <= a)%Q.
Proof.
  unfold Qltb. destruct (Qlt_le_dec a b) as [H | H]; split; intro K;
    try reflexivity; try assumption; try discriminate.
  exfalso. apply (Qlt_irrefl a). apply Qlt_le_trans with b; assumption.
Qed.

Lemma Qltb_cases (a b : Q) :
  (Qltb a b = true /\ (a < b)%Q) \/ (Qltb a b = false /\ (b <= a)%Q).
Proof.
  destruct (Qltb a b) eqn:E.
  - left. split; [reflexivity | apply Qltb_true; exact E].
  - right. split; [reflexivity | apply Qltb_false; exact E].
Qed.

(** Splits on every comparison [Qltb a b] left in the goal, keeping the
    order fact of each branch in the context. *)
Ltac qsplit :=
  repeat match goal with
  | |- context [Qltb ?a ?b] =>
      let E := fresh "E" in let H := fresh "H" in
      destruct (Qltb_cases a b) as [[E H] | [E H]]; rewrite E; simpl
  end.

Lemma Qmax_cases (a b : Q) :
  ((a < b)%Q /\ Qmax a b == b) \/ ((b <= a)%Q /\ Qmax a b == a).
Proof. exact (Q.max_spec a b). Qed.

Lemma Qmin_cases (a b : Q) :
  ((a < b)%Q /\ Qmin a b == a) \/ ((b <= a)%Q /\ Qmin a b == b).
Proof. exact (Q.min_spec a b). Qed.

(** ** Overlay geometry *)

Section GeometryFacts.
Import Geometry.
Open Scope Q_scope.

Variable photoSize : Size.

Lemma keepCalendarWithinBounds_nonneg (a : Attrs) :
  0 <= attr_x (keepCalendarWithinBounds photoSize a) /\
  0 <= attr_y (keepCalendarWithinBounds photoSize a).
Proof.
  unfold keepCalendarWithinBounds; cbn [attr_x attr_y]. split; qsplit;
    try apply Q.le_max_l; lra.
Qed.

Lemma keepCalendarWithinBounds_right (a : Attrs) :
  attr_width a <= size_width photoSize ->
  attr_x (keepCalendarWithinBounds photoSize a) + attr_width a <= size_width photoSize.
Proof.
  intros Hw. unfold keepCalendarWithinBounds; cbn [attr_x]. qsplit; try lra.
  destruct (Qmax_cases 0 (size_width photoSize - attr_width a)) as [[Lm Em] | [Lm Em]];
    rewrite Em; lra.
Qed.

Lemma keepCalendarWithinBounds_bottom (a : Attrs) :
  attr_height a <= size_height photoSize ->
  attr_y (keepCalendarWithinBounds photoSize a) + attr_height a <= size_height photoSize.
Proof.
  intros Hh. unfold keepCalendarWithinBounds; cbn [attr_y]. qsplit; try lra.
  destruct (Qmax_cases 0 (size_height photoSize - attr_height a)) as [[Lm Em] | [Lm Em]];
    rewrite Em; lra.
Qed.

(** Position clamping establishes the invariants on any overlay whose size
    fits the stage. *)
Lemma keepCalendarWithinBounds_invariants (a : Attrs) :
  sizeFits photoSize a -> invariants photoSize (keepCalendarWithinBounds photoSize a).
Proof.
  intros (W0 & W1 & H0 & H1).
  destruct (keepCalendarWithinBounds_nonneg a) as [X Y].
  pose proof (keepCalendarWithinBounds_right a W1) as R.
  pose proof (keepCalendarWithinBounds_bottom a H1) as B.
  unfold invariants. cbn [keepCalendarWithinBounds attr_width attr_height] in *.
  repeat split; assumption.
Qed.

Lemma invariants_sizeFits (a : Attrs) : invariants photoSize a -> sizeFits photoSize a.
Proof. unfold invariants, sizeFits. intros (X & Y & R & B & W & H). lra. Qed.

Lemma constrainBox_floor (newBox : Box) :
  50 <= box_width (constrainBox photoSize newBox) /\
  50 <= box_height (constrainBox photoSize newBox).
Proof.
  unfold constrainBox. split.
  - match goal with
    | |- 50 <= box_width (if Qltb (box_height ?c5) 50 then _ else _) =>
        assert (W : 50 <= box_width c5);
        [| destruct (Qltb (box_height c5) 50); exact W]
    end.
    match goal with
    | |- 50 <= box_width (if Qltb (box_width ?c4) 50 then _ else _) =>
        destruct (Qltb_cases (box_width c4) 50) as [[E H] | [E H]]; rewrite E;
        [cbn [set_box_width box_width]; lra | exact H]
    end.
  - match goal with
    | |- 50 <= box_height (if Qltb (box_height ?c5) 50 then _ else _) =>
        destruct (Qltb_cases (box_height c5) 50) as [[E H] | [E H]]; rewrite E;
        [cbn [set_box_height box_height]; lra | exact H]
    end.
Qed.

Lemma boundBoxFunc_paths (oldBox newBox : Box) :
  boundBoxFunc photoSize oldBox newBox = oldBox
  \/ (boundBoxFunc photoSize oldBox newBox = constrainBox photoSize newBox
      /\ 50 <= box_width newBox /\ 50 <= box_height newBox)
  \/ (boundBoxFunc photoSize oldBox newBox = newBox
      /\ 50 <= box_width newBox /\ 50 <= box_height newBox).
Proof.
  unfold boundBoxFunc.
  destruct (Qltb_cases (box_width newBox) 50) as [[E1 H1] | [E1 H1]]; rewrite E1;
    cbn [orb]; [left; reflexivity |].
  destruct (Qltb_cases (box_height newBox) 50) as [[E2 H2] | [E2 H2]]; rewrite E2;
    [left; reflexivity |].
  right. match goal with |- context [if ?c then _ else _] => destruct c end;
    [left | right]; repeat split; assumption.
Qed.

Lemma boundBoxFunc_floor (oldBox newBox : Box) :
  50 <= box_width oldBox -> 50 <= box_height oldBox ->
  50 <= box_width (boundBoxFunc photoSize oldBox newBox) /\
  50 <= box_height (boundBoxFunc photoSize oldBox newBox).
Proof.
  intros W H.
  destruct (boundBoxFunc_paths oldBox newBox) as [E | [(E & W' & H') | (E & W' & H')]];
    rewrite E; [split; assumption | apply constrainBox_floor | split; assumption].
Qed.

Lemma resize_fold_floor (candidates : list Box) (start : Box) :
  50 <= box_width start -> 50 <= box_height start ->
  50 <= box_width (fold_left (boundBoxFunc photoSize) candidates start) /\
  50 <= box_height (fold_left (boundBoxFunc photoSize) candidates start).
Proof.
  revert start. induction candidates as [| c rest IH]; intros start W H; cbn [fold_left].
  - split; assumption.
  - destruct (boundBoxFunc_floor start c W H) as [W' H']. apply IH; assumption.
Qed.

Lemma Qmin_between (v lo hi : Q) : lo <= v -> lo <= hi -> lo <= Qmin v hi /\ Qmin v hi <= hi.
Proof.
  intros A B. destruct (Qmin_cases v hi) as [[L E] | [L E]]; rewrite E; lra.
Qed.

Lemma scaled_back (w b : Q) : 0 < w -> w * (b / w) == b.
Proof. intros H. apply Qmult_div_r. lra. Qed.

Lemma handleTransformEnd_invariants (a : Attrs) (b : Box) :
  50 <= size_width photoSize -> 50 <= size_height photoSize ->
  0 < attr_width a -> 0 < attr_height a ->
  50 <= box_width b -> 50 <= box_height b ->
  invariants photoSize (handleTransformEnd photoSize a (nodeAfterResize a b)).
Proof.
  intros SW SH AW AH BW BH. unfold handleTransformEnd.
  apply keepCalendarWithinBounds_invariants.
  unfold sizeFits, nodeAfterResize. cbn [attr_width attr_height node_width node_height
                                         node_scaleX node_scaleY].
  assert (EW : attr_width a * (box_width b / attr_width a) == box_width b)
    by (apply scaled_back; exact AW).
  assert (EH : attr_height a * (box_height b / attr_height a) == box_height b)
    by (apply scaled_back; exact AH).
  destruct (Qmin_between (attr_width a * (box_width b / attr_width a)) 50
              (size_width photoSize)) as [W0 W1]; [rewrite EW; exact BW | exact SW |].
  destruct (Qmin_between (attr_height a * (box_height b / attr_height a)) 50
              (size_height photoSize)) as [H0 H1]; [rewrite EH; exact BH | exact SH |].
  repeat split; assumption.
Qed.

Lemma applyGesture_invariants (a : Attrs) (g : Gesture) :
  50 <= size_width photoSize -> 50 <= size_height photoSize ->
  sizeFits photoSize a -> invariants photoSize (applyGesture photoSize a g).
Proof.
  intros SW SH F. destruct g as [tx ty | candidates]; cbn [applyGesture].
  - unfold onDragEnd. apply keepCalendarWithinBounds_invariants.
    unfold sizeFits in *. cbn [attr_width attr_height]. exact F.
  - destruct F as (W0 & W1 & H0 & H1).
    destruct (resize_fold_floor candidates (boxOf a)) as [BW BH];
      [cbn [boxOf box_width]; exact W0 | cbn [boxOf box_height]; exact H0 |].
    apply handleTransformEnd_invariants; try assumption; lra.
Qed.

End GeometryFacts.

Section OverlayClaims.
Import Geometry.
Open Scope Q_scope.

(** C9: [keepCalendarWithinBounds] returns the record it was given with
    only [x] and [y] possibly changed: width, height and the remaining field
    are the input's. *)
Theorem keepCalendarWithinBounds_only_moves (photoSize : Size) (newAttrs : Attrs) :
  attr_width (keepCalendarWithinBounds photoSize newAttrs) = attr_width newAttrs /\
  attr_height (keepCalendarWithinBounds photoSize newAttrs) = attr_height newAttrs /\
  attr_id (keepCalendarWithinBounds photoSize newAttrs) = attr_id newAttrs /\
  keepCalendarWithinBounds photoSize newAttrs =
    {| attr_x := attr_x (keepCalendarWithinBounds photoSize newAttrs);
       attr_y := attr_y (keepCalendarWithinBounds photoSize newAttrs);
       attr_width := attr_width newAttrs;
       attr_height := attr_height newAttrs;
       attr_id := attr_id newAttrs |}.
Proof.
  unfold keepCalendarWithinBounds. cbn [attr_x attr_y attr_width attr_height attr_id].
  repeat split; reflexivity.
Qed.

(** C4: a candidate box narrower or lower than 50 is rejected:
    [boundBoxFunc] returns the previous box itself, and proposing the same
    candidate again changes nothing. *)
Theorem boundBoxFunc_rejects_small (photoSize : Size) (oldBox newBox : Box) :
  box_width newBox < 50 \/ box_height newBox < 50 ->
  boundBoxFunc photoSize oldBox newBox = oldBox /\
  boundBoxFunc photoSize (boundBoxFunc photoSize oldBox newBox) newBox = oldBox.
Proof.
  intros H.
  assert (R : forall prev, boundBoxFunc photoSize prev newBox = prev).
  { intros prev. unfold boundBoxFunc.
    destruct H as [H | H]; apply Qltb_true in H; rewrite H;
      [| rewrite orb_true_r]; reflexivity. }
  rewrite !R. split; reflexivity.
Qed.

Lemma boundBoxFunc_rejects_small_witness :
  (box_width (mkBox 10 10 20 700 0) < 50 \/ box_height (mkBox 10 10 20 700 0) < 50) /\
  boundBoxFunc landscapeStage (boxOf landscapeAttrs) (mkBox 10 10 20 700 0)
    = boxOf landscapeAttrs /\
  boundBoxFunc landscapeStage
    (boundBoxFunc landscapeStage (boxOf landscapeAttrs) (mkBox 10 10 20 700 0))
    (mkBox 10 10 20 700 0) = boxOf landscapeAttrs.
Proof.
  assert (H : box_width (mkBox 10 10 20 700 0) < 50 \/ box_height (mkBox 10 10 20 700 0) < 50)
    by (left; reflexivity).
  split; [exact H |].
  exact (boundBoxFunc_rejects_small landscapeStage (boxOf landscapeAttrs)
           (mkBox 10 10 20 700 0) H).
Defined.

(** C10: when the previous box is at least 50 wide and 50 high, so is the
    box [boundBoxFunc] returns, whichever of its three return paths is
    taken: the previous box (rejection), the constrained box, or the
    candidate itself. *)
Theorem boundBoxFunc_keeps_minimum (photoSize : Size) (oldBox newBox : Box) :
  50 <= box_width oldBox -> 50 <= box_height oldBox ->
  (boundBoxFunc photoSize oldBox newBox = oldBox \/
   boundBoxFunc photoSize oldBox newBox = constrainBox photoSize newBox \/
   boundBoxFunc photoSize oldBox newBox = newBox) /\
  50 <= box_width (boundBoxFunc photoSize oldBox newBox) /\
  50 <= box_height (boundBoxFunc photoSize oldBox newBox).
Proof.
  intros W H. split.
  - destruct (boundBoxFunc_paths photoSize oldBox newBox) as [E | [[E _] | [E _]]];
      auto.
  - apply boundBoxFunc_floor; assumption.
Qed.

Lemma boundBoxFunc_keeps_minimum_witness :
  50 <= box_width (boxOf landscapeAttrs) /\ 50 <= box_height (boxOf landscapeAttrs) /\
  50 <= box_width (boundBoxFunc landscapeStage (boxOf landscapeAttrs)
                     (mkBox (-100) 580 120 100 0)) /\
  50 <= box_height (boundBoxFunc landscapeStage (boxOf landscapeAttrs)
                      (mkBox (-100) 580 120 100 0)).
Proof.
  assert (W : 50 <= box_width (boxOf landscapeAttrs)) by (vm_compute; discriminate).
  assert (H : 50 <= box_height (boxOf landscapeAttrs)) by (vm_compute; discriminate).
  split; [exact W |]. split; [exact H |].
  exact (proj2 (boundBoxFunc_keeps_minimum landscapeStage (boxOf landscapeAttrs)
                  (mkBox (-100) 580 120 100 0) W H)).
Defined.

(** C1 fails on the code: the overlay the sizing effect places on a 4000
    by 400 panorama in a 1600 by 900 desktop window is 600 by 510 on a
    stage 1280 by 128, since the effect fits the overlay to the width of
    the photo only; a drag to (500, 20) then commits it at y = 0 with its
    height unchanged, so [y + height] exceeds the stage height. *)
Lemma panorama_drag_breaks_invariants :
  reachable panoramaStage panoramaAttrs /\
  ~ Forall (invariants panoramaStage)
      (committed panoramaStage panoramaAttrs [Drag 500 20]).
Proof.
  split.
  - exact (reach_placed panoramaViewport 4000 400 eq_refl eq_refl eq_refl eq_refl).
  - intros F. inversion F as [| a l (X & Y & R & B & W & H) _]; subst.
    vm_compute in B. apply B. reflexivity.
Qed.

End OverlayClaims.

(** ** The calendar grid *)

Section CalendarFacts.
Import Calendar.
Open Scope Z_scope.

Ltac zdiv := Z.div_mod_to_equations; lia.

Lemma DaysInYear_step (y : Z) : DayFromYear (y + 1) - DayFromYear y = DaysInYear y.
Proof.
  unfold DayFromYear, DaysInYear.
  destruct (Z.eqb_spec (y mod 4) 0); cbn [negb];
  [ destruct (Z.eqb_spec (y mod 100) 0); cbn [negb];
    [ destruct (Z.eqb_spec (y mod 400) 0); cbn [negb] | ] | ]; zdiv.
Qed.

Lemma DaysInYear_cases (y : Z) : DaysInYear y = 365 \/ DaysInYear y = 366.
Proof.
  unfold DaysInYear.
  destruct (y mod 4 =? 0), (y mod 100 =? 0), (y mod 400 =? 0); simpl; auto.
Qed.

Lemma YearFromDay_unique (d y : Z) :
  DayFromYear y <= d < DayFromYear (y + 1) -> YearFromDay d = y.
Proof.
  intros H. unfold YearFromDay.
  assert (G : y - 1 <= 1970 + (400 * d) / 146097 <= y + 1).
  { unfold DayFromYear in H. zdiv. }
  set (g := 1970 + (400 * d) / 146097) in *.
  pose proof (DaysInYear_step (y - 1)) as S0. pose proof (DaysInYear_cases (y - 1)).
  pose proof (DaysInYear_step y) as S1. pose proof (DaysInYear_cases y).
  pose proof (DaysInYear_step (y + 1)) as S2. pose proof (DaysInYear_cases (y + 1)).
  replace (y - 1 + 1) with y in S0 by lia.
  assert (C : g = y - 1 \/ g = y \/ g = y + 1) by lia.
  destruct C as [-> | [-> | ->]].
  - replace (y - 1 + 1) with y by lia.
    destruct (Z.leb_spec (DayFromYear y) d); lia.
  - destruct (Z.leb_spec (DayFromYear (y + 1)) d); try lia.
    destruct (Z.ltb_spec d (DayFromYear y)); lia.
  - destruct (Z.leb_spec (DayFromYear (y + 1 + 1)) d); try lia.
    destruct (Z.ltb_spec d (DayFromYear (y + 1))); lia.
Qed.

(** [YearFromDay] meets the definition of the year of a day: the largest
    year that starts on or before it. *)
Lemma YearFromDay_spec (d : Z) :
  DayFromYear (YearFromDay d) <= d < DayFromYear (YearFromDay d + 1).
Proof.
  assert (G : DayFromYear (1970 + (400 * d) / 146097 - 1) <= d
              /\ d < DayFromYear (1970 + (400 * d) / 146097 + 1 + 1)).
  { unfold DayFromYear. zdiv. }
  unfold YearFromDay.
  set (g := 1970 + (400 * d) / 146097) in *.
  destruct (Z.leb_spec (DayFromYear (g + 1)) d); [lia |].
  destruct (Z.ltb_spec d (DayFromYear g)); [| lia].
  replace (g - 1 + 1) with g by lia. lia.
Qed.

Lemma Day_MakeDate (day : Z) : Day (MakeDate day 0) = day.
Proof. unfold Day, MakeDate, msPerDay. zdiv. Qed.

Lemma leapflag_cases (y : Z) :
  (DaysInYear y = 365 /\ (if DaysInYear y =? 366 then 1 else 0) = 0) \/
  (DaysInYear y = 366 /\ (if DaysInYear y =? 366 then 1 else 0) = 1).
Proof. destruct (DaysInYear_cases y) as [E | E]; rewrite E; simpl; auto. Qed.


Lemma MakeDay_small (yr m date : Z) :
  0 <= m <= 11 ->
  MakeDay yr m date = DayFromYear yr + daysBeforeMonth (leapFlag yr) m + date - 1.
Proof.
  intros H. unfold MakeDay, leapFlag.
  rewrite (Z.div_small m 12), (Z.mod_small m 12), Z.add_0_r by lia. reflexivity.
Qed.

Lemma MakeDay_december_end (yr : Z) :
  MakeDay yr 12 0 = DayFromYear yr + DaysInYear yr - 1.
Proof.
  unfold MakeDay. change (12 / 12) with 1. change (12 mod 12) with 0.
  cbn [daysBeforeMonth]. pose proof (DaysInYear_step yr). lia.
Qed.

Lemma month_cases (month : Z) :
  0 <= month <= 11 ->
  month = 0 \/ month = 1 \/ month = 2 \/ month = 3 \/ month = 4 \/
  month = 5 \/ month = 6 \/ month = 7 \/ month = 8 \/ month = 9 \/
  month = 10 \/ month = 11.
Proof. lia. Qed.

(** The day number of the last day of [month]: offset within its year. *)
Lemma MakeDay_last_day (yr month : Z) :
  0 <= month <= 11 ->
  MakeDay yr (month + 1) 0 =
  DayFromYear yr + daysBeforeMonth (leapFlag yr) month + monthLength yr month - 1.
Proof.
  intros H. destruct (Z.eq_dec month 11) as [-> | N].
  - change (11 + 1) with 12. rewrite MakeDay_december_end.
    unfold leapFlag, monthLength. cbn [daysBeforeMonth].
    destruct (leapflag_cases yr) as [[E L] | [E L]]; rewrite L, E; lia.
  - rewrite MakeDay_small by lia. unfold monthLength, leapFlag.
    destruct (leapflag_cases yr) as [[E L] | [E L]]; rewrite L, E;
    destruct (month_cases month H) as [-> | [-> | [-> | [-> | [-> | [-> | [-> | [-> | [-> | [-> | [-> | ->]]]]]]]]]]];
    generalize (DayFromYear yr); intro base; cbn; lia.
Qed.

Lemma daysBeforeMonth_bounds (yr month : Z) :
  0 <= month <= 11 ->
  0 <= daysBeforeMonth (leapFlag yr) month /\
  daysBeforeMonth (leapFlag yr) month + monthLength yr month <= DaysInYear yr /\
  1 <= monthLength yr month.
Proof.
  intros H. unfold monthLength, leapFlag.
  destruct (leapflag_cases yr) as [[E L] | [E L]]; rewrite L, E;
  destruct (month_cases month H) as [-> | [-> | [-> | [-> | [-> | [-> | [-> | [-> | [-> | [-> | [-> | ->]]]]]]]]]]];
  cbn; lia.
Qed.

(** The day before the first of the next month is the last day of the
    month. *)
Lemma DateFromTime_last_day (yr month : Z) :
  0 <= month <= 11 ->
  DateFromTime (MakeDate (MakeDay yr (month + 1) 0) 0) = monthLength yr month.
Proof.
  intros Hm.
  pose proof (daysBeforeMonth_bounds yr month Hm) as (B0 & B1 & B2).
  pose proof (DaysInYear_step yr) as S1.
  assert (Y : YearFromDay (MakeDay yr (month + 1) 0) = yr).
  { apply YearFromDay_unique. rewrite MakeDay_last_day by assumption. lia. }
  unfold DateFromTime, MonthFromTime, DayWithinYear, InLeapYear, YearFromTime.
  rewrite Day_MakeDate, Y, MakeDay_last_day by assumption.
  fold (leapFlag yr).
  replace (DayFromYear yr + daysBeforeMonth (leapFlag yr) month +
           monthLength yr month - 1 - DayFromYear yr)
    with (daysBeforeMonth (leapFlag yr) month + monthLength yr month - 1) by lia.
  unfold monthLength, leapFlag.
  destruct (leapflag_cases yr) as [[E L] | [E L]]; rewrite L, E;
  destruct (month_cases month Hm) as [-> | [-> | [-> | [-> | [-> | [-> | [-> | [-> | [-> | [-> | [-> | ->]]]]]]]]]]];
  reflexivity.
Qed.

Lemma WeekDay_range (t : Z) : 0 <= WeekDay t <= 6.
Proof. unfold WeekDay. zdiv. Qed.

Lemma fullYear_valid (year : Z) :
  validYear year ->
  validYear (fullYear year).
Proof.
  unfold validYear, fullYear. intros H.
  destruct (Z.leb_spec 0 year); destruct (Z.leb_spec year 99); cbn [andb]; lia.
Qed.

Lemma DayFromYear_range (yr : Z) :
  validYear yr -> -100000000 <= DayFromYear yr /\ DayFromYear (yr + 1) <= 100000000.
Proof. unfold validYear, DayFromYear. intros H. zdiv. Qed.


Lemma TimeClip_first_day (yr month : Z) :
  validYear yr -> 0 <= month <= 11 ->
  TimeClip (MakeDate (MakeDay yr month 1) 0) = Some (MakeDate (MakeDay yr month 1) 0).
Proof.
  intros Hy Hm.
  pose proof (DayFromYear_range yr Hy) as [R0 R1].
  pose proof (daysBeforeMonth_bounds yr month Hm) as (B0 & B1 & B2).
  pose proof (DaysInYear_step yr) as S1.
  assert (D : -100000000 <= MakeDay yr month 1 <= 100000000).
  { rewrite MakeDay_small by assumption. lia. }
  unfold TimeClip, MakeDate, msPerDay.
  destruct (Z.leb_spec (Z.abs (MakeDay yr month 1 * 86400000 + 0)) 8640000000000000);
    [reflexivity | lia].
Qed.

Lemma TimeClip_last_day (yr month : Z) :
  validYear yr -> 0 <= month <= 11 ->
  TimeClip (MakeDate (MakeDay yr (month + 1) 0) 0)
  = Some (MakeDate (MakeDay yr (month + 1) 0) 0).
Proof.
  intros Hy Hm.
  pose proof (DayFromYear_range yr Hy) as [R0 R1].
  pose proof (daysBeforeMonth_bounds yr month Hm) as (B0 & B1 & B2).
  pose proof (DaysInYear_step yr) as S1.
  assert (D : -100000000 <= MakeDay yr (month + 1) 0 <= 100000000).
  { rewrite MakeDay_last_day by assumption. lia. }
  unfold TimeClip, MakeDate, msPerDay.
  destruct (Z.leb_spec (Z.abs (MakeDay yr (month + 1) 0 * 86400000 + 0)) 8640000000000000);
    [reflexivity | lia].
Qed.

Lemma firstDayOf_valid (year month : Z) :
  validYear year -> 0 <= month <= 11 ->
  exists fd, firstDayOf year month = Some fd /\ 0 <= fd <= 6.
Proof.
  intros Hy Hm. unfold firstDayOf, newDate.
  rewrite TimeClip_first_day by (try apply fullYear_valid; assumption).
  cbn [getDay option_map]. eexists. split; [reflexivity | apply WeekDay_range].
Qed.

Lemma daysInMonthOf_valid (year month : Z) :
  validYear year -> 0 <= month <= 11 ->
  daysInMonthOf year month = Some (monthLength (fullYear year) month).
Proof.
  intros Hy Hm. unfold daysInMonthOf, newDate.
  rewrite TimeClip_last_day by (try apply fullYear_valid; assumption).
  cbn [getDate option_map]. rewrite DateFromTime_last_day by assumption. reflexivity.
Qed.

Lemma monthLength_range (yr month : Z) : 28 <= monthLength yr month <= 31.
Proof.
  unfold monthLength.
  repeat match goal with
         | |- context [match ?x with _ => _ end] => destruct x
         end; lia.
Qed.

(** The drawn cells, in drawing order, are the days 1, 2, ... of the month,
    day [d] sitting at grid offset [fd + d - 1]. *)
Lemma gridCells_days (fontColor : string) (fd dim : Z) :
  0 <= fd <= 6 -> 28 <= dim <= 31 ->
  map (fun c => (cell_row c * 7 + cell_col c, cell_day c))
      (gridCells fontColor (Some fd) (Some dim))
  = map (fun d => (fd + d - 1, d)) (map Z.of_nat (seq 1 (Z.to_nat dim))).
Proof.
  intros Hf Hd.
  assert (F : fd = 0 \/ fd = 1 \/ fd = 2 \/ fd = 3 \/ fd = 4 \/ fd = 5 \/ fd = 6) by lia.
  assert (D : dim = 28 \/ dim = 29 \/ dim = 30 \/ dim = 31) by lia.
  destruct F as [-> | [-> | [-> | [-> | [-> | [-> | ->]]]]]];
  destruct D as [-> | [-> | [-> | ->]]]; vm_compute; reflexivity.
Qed.

Lemma range_In (n : nat) (z : Z) : In z (range n) <-> 0 <= z < Z.of_nat n.
Proof.
  unfold range. rewrite in_map_iff. split.
  - intros (k & <- & Hk). apply in_seq in Hk. lia.
  - intros H. exists (Z.to_nat z). split; [lia | apply in_seq; lia].
Qed.

Lemma gridCells_In (fontColor : string) (firstDay daysInMonth : option Z) (c : DayCell) :
  In c (gridCells fontColor firstDay daysInMonth) <->
  0 <= cell_row c < 6 /\ 0 <= cell_col c < 7 /\
  drawsDay firstDay daysInMonth (cell_row c) (cell_col c) = Some (cell_day c) /\
  cell_fill c = (if (cell_col c =? 0) || (cell_col c =? 6) then "#e63946"%string else fontColor).
Proof.
  unfold gridCells. rewrite in_flat_map. split.
  - intros (row & Hr & H). apply in_flat_map in H. destruct H as (col & Hc & H).
    apply range_In in Hr. apply range_In in Hc. unfold drawCell in H.
    destruct (drawsDay firstDay daysInMonth row col) as [d |] eqn:E; [| destruct H].
    destruct H as [<- | []]. cbn. repeat split; try lia. exact E.
  - intros (Hr & Hc & E & Hfill). exists (cell_row c). split; [apply range_In; cbn; lia |].
    apply in_flat_map. exists (cell_col c). split; [apply range_In; cbn; lia |].
    unfold drawCell. rewrite E. left. destruct c as [r k d f]. cbn in *. subst f. reflexivity.
Qed.

Lemma drawsDay_Some (fd dim row col d : Z) :
  drawsDay (Some fd) (Some dim) row col = Some d <->
  d = row * 7 + col - fd + 1 /\ 1 <= d <= dim.
Proof.
  unfold drawsDay.
  destruct (Z.ltb_spec 0 (row * 7 + col - fd + 1));
  destruct (Z.leb_spec (row * 7 + col - fd + 1) dim); cbn [andb]; split;
    try (intros E; inversion E; subst; lia); try discriminate; try lia.
  all: intros [-> ?]; try reflexivity; lia.
Qed.

(** The leap-year rule behind [leapFlag]. *)
Lemma leapFlag_rule (y : Z) :
  (leapFlag y = 0 /\ (y mod 4 <> 0 \/ (y mod 100 = 0 /\ y mod 400 <> 0))) \/
  (leapFlag y = 1 /\ y mod 4 = 0 /\ (y mod 100 <> 0 \/ y mod 400 = 0)).
Proof.
  unfold leapFlag, DaysInYear.
  destruct (Z.eqb_spec (y mod 4) 0); cbn [negb];
  [ destruct (Z.eqb_spec (y mod 100) 0); cbn [negb];
    [ destruct (Z.eqb_spec (y mod 400) 0); cbn [negb] | ] | ]; cbn; tauto.
Qed.

(** Zeller's congruence agrees with the platform's count of days: the
    weekday of a day of a month is the weekday of its day number. *)
Lemma zellerWeekday_day_number (y m d : Z) :
  0 <= m <= 11 ->
  zellerWeekday y m d = (MakeDay y m d + 4) mod 7.
Proof.
  intros H. rewrite MakeDay_small by assumption.
  unfold zellerWeekday, DayFromYear.
  destruct (leapFlag_rule y) as [[L V] | [L V]]; rewrite L;
  destruct (month_cases m H) as [-> | [-> | [-> | [-> | [-> | [-> | [-> | [-> | [-> | [-> | [-> | ->]]]]]]]]]]];
  cbn [daysBeforeMonth Z.ltb Z.compare Pos.compare Pos.compare_cont];
  cbn -[Z.div Z.modulo Z.mul Z.add Z.sub]; zdiv.
Qed.

(** What the code reads as [firstDay] is the civil weekday of the first of
    the month, in the year as the constructor reads it. *)
Lemma firstDayOf_civil (year month : Z) :
  validYear year -> 0 <= month <= 11 ->
  firstDayOf year month = Some (firstWeekday month (fullYear year)).
Proof.
  intros Hy Hm. unfold firstDayOf, newDate, firstWeekday.
  rewrite TimeClip_first_day by (try apply fullYear_valid; assumption).
  cbn [getDay option_map]. unfold WeekDay.
  rewrite Day_MakeDate, zellerWeekday_day_number by assumption. reflexivity.
Qed.

Lemma firstWeekday_range (month year : Z) : 0 <= firstWeekday month year <= 6.
Proof. unfold firstWeekday, zellerWeekday. zdiv. Qed.

(** C2, as stated, fails for the years the platform's constructor does not
    take as written.  It reads year 0 as 1900: for February of year 0 the
    rasterizer draws the 28 days of February 1900 with day 1 in column 4,
    while the civil February of year 0 has 29 days and starts in column 2.
    And December 275760 lies past the last date the platform represents:
    its grid is empty, while the civil month has 31 days. *)
Lemma renderCalendar_misreads_years :
  (Z.of_nat (List.length (renderCalendar "#ffffff" 0 1)) = 28 /\
   daysInMonth 1 0 = 29 /\
   firstDayOf 0 1 = Some 4 /\ firstWeekday 1 0 = 2 /\
   ~ (forall row col, 0 <= row < 6 -> 0 <= col < 7 ->
        ((exists c, In c (renderCalendar "#ffffff" 0 1) /\
                    cell_row c = row /\ cell_col c = col)
         <-> 1 <= row * 7 + col - firstWeekday 1 0 + 1 <= daysInMonth 1 0))) /\
  (renderCalendar "#ffffff" 275760 11 = [] /\ daysInMonth 11 275760 = 31 /\
   Z.of_nat (List.length (renderCalendar "#ffffff" 275760 11))
   <> daysInMonth 11 275760).
Proof.
  split; [| split; [reflexivity | split; [reflexivity | discriminate]]].
  split; [reflexivity |]. split; [reflexivity |].
  split; [reflexivity |]. split; [reflexivity |].
  intros H. destruct (proj2 (H 0 2 ltac:(lia) ltac:(lia))) as (c & Hin & Hr & Hc).
  - change (firstWeekday 1 0) with 2. change (daysInMonth 1 0) with 29. lia.
  - apply gridCells_In in Hin. destruct Hin as (_ & _ & E & _).
    rewrite Hr, Hc in E. discriminate E.
Qed.

(** C2, amended: for a month in 0..11 and a year from -271820 to 275759,
    taken as the platform's constructor reads it (1900 + year for a year
    in 0..99, the year as written otherwise), the rasterizer draws a day
    number in grid cell (row, col) exactly when
    [row*7 + col - firstWeekday + 1] lies in [1, daysInMonth], and that
    number is the one drawn; the drawn cells are the days 1, 2, ...,
    daysInMonth in order, so there are exactly daysInMonth of them, and day 1
    sits at grid offset firstWeekday (row 0, column firstWeekday).
    [firstWeekday] and [daysInMonth] are those of the civil calendar, and
    they are what the code reads from the platform's dates. *)
Theorem renderCalendar_day_cells (fontColor : string) (year month : Z) :
  0 <= month <= 11 -> validYear year ->
  let fd := firstWeekday month (fullYear year) in
  let dim := daysInMonth month (fullYear year) in
  (year < 0 \/ 99 < year -> fullYear year = year) /\
  firstDayOf year month = Some fd /\ 0 <= fd <= 6 /\
  daysInMonthOf year month = Some dim /\ 28 <= dim <= 31 /\
  (forall row col, 0 <= row < 6 -> 0 <= col < 7 ->
     ((exists c, In c (renderCalendar fontColor year month) /\
                 cell_row c = row /\ cell_col c = col)
      <-> 1 <= row * 7 + col - fd + 1 <= dim)) /\
  (forall c, In c (renderCalendar fontColor year month) ->
             cell_day c = cell_row c * 7 + cell_col c - fd + 1) /\
  map (fun c => (cell_row c * 7 + cell_col c, cell_day c))
      (renderCalendar fontColor year month)
    = map (fun d => (fd + d - 1, d)) (map Z.of_nat (seq 1 (Z.to_nat dim))) /\
  Z.of_nat (List.length (renderCalendar fontColor year month)) = dim /\
  (exists c, In c (renderCalendar fontColor year month) /\
             cell_row c = 0 /\ cell_col c = fd /\ cell_day c = 1).
Proof.
  intros Hm Hy. cbv zeta. unfold daysInMonth.
  pose proof (firstDayOf_civil year month Hy Hm) as Efd.
  pose proof (firstWeekday_range month (fullYear year)) as Hfd.
  pose proof (daysInMonthOf_valid year month Hy Hm) as Edim.
  pose proof (monthLength_range (fullYear year) month) as Hdim.
  set (fd := firstWeekday month (fullYear year)) in *.
  set (dim := monthLength (fullYear year) month) in *.
  pose proof (gridCells_days fontColor fd dim Hfd Hdim) as G.
  split.
  { unfold fullYear. intros Y.
    destruct (Z.leb_spec 0 year); destruct (Z.leb_spec year 99); cbn [andb];
      [lia | reflexivity | reflexivity | reflexivity]. }
  unfold renderCalendar. rewrite Efd, Edim.
  split; [reflexivity |]. split; [exact Hfd |].
  split; [reflexivity |]. split; [exact Hdim |].
  split; [| split; [| split; [| split]]].
  - intros row col Hr Hc. split.
    + intros (c & Hin & <- & <-). apply gridCells_In in Hin.
      destruct Hin as (_ & _ & E & _). apply drawsDay_Some in E. lia.
    + intros H.
      exists {| cell_row := row; cell_col := col; cell_day := row * 7 + col - fd + 1;
                cell_fill := if (col =? 0) || (col =? 6) then "#e63946"%string
                             else fontColor |}.
      split; [| cbn; auto]. apply gridCells_In.
      cbn [cell_row cell_col cell_day cell_fill].
      split; [lia |]. split; [lia |]. split; [| reflexivity].
      apply drawsDay_Some. lia.
  - intros c Hin. apply gridCells_In in Hin.
    destruct Hin as (_ & _ & E & _). apply drawsDay_Some in E. lia.
  - exact G.
  - apply (f_equal (@List.length _)) in G. rewrite !length_map, length_seq in G. lia.
  - exists {| cell_row := 0; cell_col := fd; cell_day := 1;
              cell_fill := if (fd =? 0) || (fd =? 6) then "#e63946"%string
                           else fontColor |}.
    split; [| cbn; auto]. apply gridCells_In.
    cbn [cell_row cell_col cell_day cell_fill].
    split; [lia |]. split; [lia |]. split; [| reflexivity].
    apply drawsDay_Some. lia.
Qed.

(** December 2026 starts on a Tuesday and has 31 days. *)
Lemma renderCalendar_day_cells_witness :
  0 <= 11 <= 11 /\ validYear 2026 /\
  firstDayOf 2026 11 = Some 2 /\ daysInMonthOf 2026 11 = Some 31 /\
  (forall row col, 0 <= row < 6 -> 0 <= col < 7 ->
     ((exists c, In c (renderCalendar "#ffffff" 2026 11) /\
                 cell_row c = row /\ cell_col c = col)
      <-> 1 <= row * 7 + col - 2 + 1 <= 31)) /\
  Z.of_nat (List.length (renderCalendar "#ffffff" 2026 11)) = 31 /\
  (exists c, In c (renderCalendar "#ffffff" 2026 11) /\
             cell_row c = 0 /\ cell_col c = 2 /\ cell_day c = 1).
Proof.
  assert (Hm : 0 <= 11 <= 11) by lia.
  assert (Hy : validYear 2026) by (unfold validYear; lia).
  split; [exact Hm |]. split; [exact Hy |].
  pose proof (renderCalendar_day_cells "#ffffff" 2026 11 Hm Hy) as T.
  cbv zeta in T.
  change (firstWeekday 11 (fullYear 2026)) with 2 in T.
  change (daysInMonth 11 (fullYear 2026)) with 31 in T.
  destruct T as (_ & Efd & _ & Edim & _ & Cells & _ & _ & Len & First).
  split; [exact Efd |]. split; [exact Edim |].
  split; [exact Cells |]. split; [exact Len | exact First].
Defined.

End CalendarFacts.

(** ** Month navigation *)

Section NavigationClaims.
Import Navigation.
Open Scope Z_scope.

(** C5: with the month in 0..11 and a step of +1 or -1, stepping forward
    from month 11 gives month 0 of the next year, stepping back from month 0
    gives month 11 of the previous year, and every other step adds the delta
    to the month and keeps the year. *)
Theorem changeMonth_cyclic (month year delta : Z) :
  0 <= month <= 11 -> delta = 1 \/ delta = -1 ->
  (month = 11 -> delta = 1 -> changeMonth month year delta = (0, year + 1)) /\
  (month = 0 -> delta = -1 -> changeMonth month year delta = (11, year - 1)) /\
  (~ (month = 11 /\ delta = 1) -> ~ (month = 0 /\ delta = -1) ->
   changeMonth month year delta = (month + delta, year)).
Proof.
  intros Hm Hd. unfold changeMonth.
  destruct (Z.ltb_spec 11 (month + delta)); destruct (Z.ltb_spec (month + delta) 0);
    repeat split; intros; try reflexivity; try lia.
Qed.

Lemma changeMonth_cyclic_witness :
  0 <= 11 <= 11 /\ (1 = 1 \/ 1 = -1) /\
  changeMonth 11 2026 1 = (0, 2026 + 1).
Proof.
  assert (Hm : 0 <= 11 <= 11) by lia.
  assert (Hd : 1 = 1 \/ 1 = -1) by (left; reflexivity).
  split; [exact Hm |]. split; [exact Hd |].
  exact (proj1 (changeMonth_cyclic 11 2026 1 Hm Hd) eq_refl eq_refl).
Defined.

End NavigationClaims.

(** ** Filter selection *)

Section FilterClaims.
Import Filter.
Open Scope string_scope.

(** C8: for a photo (a non-empty [userImage]), on every platform and
    whatever the baking of an earlier filter does, selecting "none" makes
    the filter effect set [filteredImage] to null, once; the displayed image
    is then the source photo, and neither the photo node, nor the canvas
    container, nor the export context gets a filter style. *)
Theorem none_filter_keeps_photo (userImage : string) (isIOSDevice : bool)
    (baking : Baking) (timeoutFirst : bool) (filteredImage : option string) :
  userImage <> "" ->
  filterEffectWrites userImage "none" isIOSDevice baking timeoutFirst filteredImage
    = [None] /\
  filterEffect userImage "none" isIOSDevice baking timeoutFirst filteredImage = None /\
  displaySource
    (filterEffect userImage "none" isIOSDevice baking timeoutFirst filteredImage)
    userImage = userImage /\
  photoNodeFilter isIOSDevice
    (filterEffect userImage "none" isIOSDevice baking timeoutFirst filteredImage)
    "none" = None /\
  containerFilter isIOSDevice "none" = None /\
  exportContextFilter "none" = None.
Proof.
  intros Hphoto.
  assert (W : filterEffectWrites userImage "none" isIOSDevice baking timeoutFirst
                filteredImage = [None]).
  { unfold filterEffectWrites. apply String.eqb_neq in Hphoto. rewrite Hphoto.
    reflexivity. }
  assert (E : filterEffect userImage "none" isIOSDevice baking timeoutFirst
                filteredImage = None).
  { unfold filterEffect. rewrite W. reflexivity. }
  rewrite E. repeat split; try assumption; try reflexivity.
  - destruct isIOSDevice; reflexivity.
  - destruct isIOSDevice; reflexivity.
Qed.

Lemma none_filter_keeps_photo_witness :
  "blob:photo" <> "" /\
  filterEffect "blob:photo" "none" true (BakeDataUrl "data:image/jpeg;base64,AA") false
    (Some "data:image/jpeg;base64,BB") = None.
Proof.
  assert (H : "blob:photo" <> "") by discriminate.
  split; [exact H |].
  exact (proj1 (proj2 (none_filter_keeps_photo "blob:photo" true
                         (BakeDataUrl "data:image/jpeg;base64,AA") false
                         (Some "data:image/jpeg;base64,BB") H))).
Defined.

End FilterClaims.

(** ** The export pipeline *)

Section CompositorFacts.
Import Geometry Compositor.
Open Scope Q_scope.

(** The export ratio is 3, 6, 7 or 8: positive in every case. *)
Lemma exportPixelRatio_positive (mobile : bool) (screenWidth : Q) :
  0 < exportPixelRatio mobile screenWidth.
Proof.
  unfold exportPixelRatio.
  destruct mobile; [| reflexivity].
  destruct (Qleb screenWidth 375); [reflexivity |].
  destruct (Qleb screenWidth 428); [reflexivity |].
  destruct (Qleb screenWidth 768); reflexivity.
Qed.

Lemma Qdiv_positive (a b : Q) : 0 < a -> 0 < b -> 0 < a / b.
Proof.
  intros A B. unfold Qdiv. apply Qmult_lt_0_compat; [exact A |].
  apply Qinv_lt_0_compat. exact B.
Qed.

Lemma Qmin_positive (a b : Q) : 0 < a -> 0 < b -> 0 < Qmin a b.
Proof.
  intros A B. destruct (Qmin_cases a b) as [[L E] | [L E]]; rewrite E; assumption.
Qed.

Lemma scaled_to_limit (t u : Q) :
  0 < t -> 0 < u -> t * Qmin (4096 / t) (4096 / u) <= 4096.
Proof.
  intros T U.
  assert (E : t * (4096 / t) == 4096) by (apply Qmult_div_r; lra).
  apply Qle_trans with (t * (4096 / t)).
  - apply (proj2 (Qmult_le_l _ _ t T)). apply Q.le_min_l.
  - rewrite E. apply Qle_refl.
Qed.

Lemma offscreenSize_within_limit (stageWidth stageHeight ratio : Q) :
  0 < stageWidth -> 0 < stageHeight -> 0 < ratio ->
  fst (offscreenSize stageWidth stageHeight ratio) <= 4096 /\
  snd (offscreenSize stageWidth stageHeight ratio) <= 4096.
Proof.
  intros SW SH R.
  assert (TW : 0 < stageWidth * ratio) by (apply Qmult_lt_0_compat; assumption).
  assert (TH : 0 < stageHeight * ratio) by (apply Qmult_lt_0_compat; assumption).
  unfold offscreenSize.
  destruct (Qltb_cases 4096 (stageWidth * ratio)) as [[E1 H1] | [E1 H1]]; rewrite E1;
    cbn [orb].
  2: destruct (Qltb_cases 4096 (stageHeight * ratio)) as [[E2 H2] | [E2 H2]]; rewrite E2.
  3: { cbn [fst snd]. split; assumption. }
  all: cbn [fst snd]; split; [apply scaled_to_limit; assumption |].
  all: rewrite Q.min_comm; apply scaled_to_limit; assumption.
Qed.

(** C3: the target is [stageWidth * ratio] by [stageHeight * ratio]; it is
    the size given to the canvas when neither exceeds 4096; when one does,
    both are multiplied by [min (4096 / targetWidth) (4096 / targetHeight)],
    neither final dimension exceeds 4096, and the final width-to-height
    ratio is the stage's.  In both cases the canvas, which keeps the integer
    parts, has neither dimension above 4096. *)
Theorem offscreenSize_fits (stageWidth stageHeight ratio : Q) :
  0 < stageWidth -> 0 < stageHeight -> 0 < ratio ->
  let targetWidth := stageWidth * ratio in
  let targetHeight := stageHeight * ratio in
  let finalWidth := fst (offscreenSize stageWidth stageHeight ratio) in
  let finalHeight := snd (offscreenSize stageWidth stageHeight ratio) in
  (targetWidth <= 4096 /\ targetHeight <= 4096 ->
   finalWidth = targetWidth /\ finalHeight = targetHeight) /\
  (4096 < targetWidth \/ 4096 < targetHeight ->
   let scaleFactor := Qmin (4096 / targetWidth) (4096 / targetHeight) in
   finalWidth = targetWidth * scaleFactor /\
   finalHeight = targetHeight * scaleFactor /\
   finalWidth <= 4096 /\ finalHeight <= 4096 /\
   finalWidth / finalHeight == stageWidth / stageHeight) /\
  (canvasDimension finalWidth <= 4096)%Z /\
  (canvasDimension finalHeight <= 4096)%Z.
Proof.
  intros SW SH R. cbv zeta.
  destruct (offscreenSize_within_limit stageWidth stageHeight ratio SW SH R) as [LW LH].
  assert (TW : 0 < stageWidth * ratio) by (apply Qmult_lt_0_compat; assumption).
  assert (TH : 0 < stageHeight * ratio) by (apply Qmult_lt_0_compat; assumption).
  split; [| split; [| split]].
  - intros [K1 K2]. unfold offscreenSize.
    apply Qltb_false in K1. apply Qltb_false in K2. rewrite K1, K2.
    split; reflexivity.
  - intros Big.
    assert (B : Qltb 4096 (stageWidth * ratio) || Qltb 4096 (stageHeight * ratio) = true).
    { apply orb_true_iff. destruct Big as [K | K]; [left | right];
        apply Qltb_true; exact K. }
    revert LW LH. unfold offscreenSize. rewrite B. cbn [fst snd]. intros LW LH.
    set (f := Qmin (4096 / (stageWidth * ratio)) (4096 / (stageHeight * ratio))) in *.
    assert (F : 0 < f)
      by (apply Qmin_positive; apply Qdiv_positive; try assumption; reflexivity).
    split; [reflexivity |]. split; [reflexivity |].
    split; [exact LW |]. split; [exact LH |].
    field. repeat split; lra.
  - unfold canvasDimension. change 4096%Z with (Qfloor 4096).
    apply Qfloor_resp_le. exact LW.
  - unfold canvasDimension. change 4096%Z with (Qfloor 4096).
    apply Qfloor_resp_le. exact LH.
Qed.

Lemma offscreenSize_fits_witness :
  0 < 800 /\ 0 < 600 /\ 0 < 7 /\
  fst (offscreenSize 800 600 7) <= 4096 /\ snd (offscreenSize 800 600 7) <= 4096 /\
  fst (offscreenSize 800 600 7) / snd (offscreenSize 800 600 7) == 800 / 600.
Proof.
  assert (SW : 0 < 800) by reflexivity.
  assert (SH : 0 < 600) by reflexivity.
  assert (R : 0 < 7) by reflexivity.
  assert (Big : 4096 < 800 * 7 \/ 4096 < 600 * 7) by (left; reflexivity).
  split; [exact SW |]. split; [exact SH |]. split; [exact R |].
  exact (proj2 (proj2 (proj1 (proj2 (offscreenSize_fits 800 600 7 SW SH R)) Big))).
Defined.

Lemma encodeCanvas_captures (env : Env) (fb : string) :
  forallb isCapture (fst (encodeCanvas env fb)) = true.
Proof.
  unfold encodeCanvas, after, done.
  destruct (canvasEncode env) as [hq |]; [| reflexivity].
  destruct (Z.of_nat (String.length hq) <? 10000)%Z; reflexivity.
Qed.

Lemma drawCalendar_captures (env : Env) (fb : string) (scaleX scaleY : Q) :
  forallb isCapture (fst (drawCalendar env fb scaleX scaleY)) = true.
Proof.
  pose proof (encodeCanvas_captures env fb) as E.
  unfold drawCalendar, after, done.
  destruct (calendarImage env) as [calendar |]; [| exact E].
  destruct (ensureImageLoaded calendar); try reflexivity.
  destruct (drawCalendarThrows env); cbn [fst app forallb isCapture andb];
    [reflexivity | exact E].
Qed.

Lemma manualDrawing_captures (env : Env) (fb : string) (fw fh : Q) :
  forallb isCapture (fst (manualDrawing env fb fw fh)) = true.
Proof.
  unfold manualDrawing, after, done.
  destruct (displayImage env) as [photo |]; [| reflexivity].
  destruct (ensureImageLoaded photo); try reflexivity.
  destruct (drawPhotoThrows env); cbn [fst app forallb isCapture andb];
    [reflexivity | apply drawCalendar_captures].
Qed.

Lemma retryCapture_captures (env : Env) (ratio : Q) :
  forallb isCapture (fst (retryCapture env ratio)) = true.
Proof.
  unfold retryCapture, after, done. destruct (simpleCapture env); reflexivity.
Qed.

(** [captureCanvas] takes capture steps only: it never writes the
    selection. *)
Lemma captureCanvas_captures (env : Env) (ratio : Q) :
  forallb isCapture (fst (captureCanvas env ratio)) = true.
Proof.
  pose proof (retryCapture_captures env ratio) as R.
  unfold captureCanvas, after, done.
  destruct (directCapture env) as [dataUrl |]; [| exact R].
  destruct (negb (isMobile env || isIOSDevice env || isAndroidDevice env));
    [reflexivity |].
  destruct (sizingThrows env); [exact R |].
  destruct (offscreenSize (stageWidth env) (stageHeight env) ratio) as [fw fh].
  destruct (negb (contextAvailable env)); cbn [fst app forallb isCapture andb];
    [reflexivity |].
  destruct (fillThrows env); [exact R |].
  cbn [fst app forallb isCapture andb]. apply manualDrawing_captures.
Qed.

Lemma guarded_captures (evs rest : list Event) :
  forallb isCapture evs = true ->
  guarded false true (evs ++ rest) = guarded false true rest.
Proof.
  induction evs as [| e evs IH]; intros H; [reflexivity |].
  cbn [forallb] in H. apply andb_true_iff in H. destruct H as [C H].
  destruct e; try discriminate C; cbn [app guarded negb andb]; apply IH; exact H.
Qed.

Lemma selectionAfter_captures (selected : bool) (evs rest : list Event) :
  forallb isCapture evs = true ->
  selectionAfter selected (evs ++ rest) = selectionAfter selected rest.
Proof.
  induction evs as [| e evs IH]; intros H; [reflexivity |].
  cbn [forallb] in H. apply andb_true_iff in H. destruct H as [C H].
  destruct e; try discriminate C; cbn [app selectionAfter]; apply IH; exact H.
Qed.

Lemma selectionAfter_no_write (selected : bool) (evs : list Event) :
  forallb (fun x => negb (writesSelection x)) evs = true ->
  selectionAfter selected evs = selected.
Proof.
  induction evs as [| e evs IH]; intros N; [reflexivity |].
  cbn [forallb] in N. apply andb_true_iff in N. destruct N as [Z N].
  destruct e; try discriminate Z; cbn [selectionAfter]; apply IH; exact N.
Qed.

(** What [guarded] checks, spelled out: before any capture step of the log
    there is a timer, the overlay is deselected when the timer starts, and
    the selection is not written between the timer and the capture. *)
Lemma guarded_sound (evs : list Event) :
  forall (selected waited : bool) (pre post : list Event) (e : Event),
  guarded selected waited evs = true ->
  evs = pre ++ e :: post -> isCapture e = true ->
  selectionAfter selected pre = false /\
  ((waited = true /\ forallb (fun x => negb (writesSelection x)) pre = true) \/
   exists p1 ms p2,
     pre = p1 ++ EvTimeout ms :: p2 /\
     selectionAfter selected p1 = false /\
     forallb (fun x => negb (writesSelection x)) p2 = true).
Proof.
  induction evs as [| x evs IH]; intros selected waited pre post e G E C.
  - destruct pre; discriminate E.
  - destruct pre as [| y pre]; cbn [app] in E; injection E as -> ->.
    + destruct e; try discriminate C; cbn [guarded] in G;
        apply andb_true_iff in G; destruct G as [G _];
        apply andb_true_iff in G; destruct G as [S W];
        apply negb_true_iff in S;
        (split; [exact S | left; split; [exact W | reflexivity]]).
    + destruct y; cbn [guarded] in G; cbn [selectionAfter];
        try (apply andb_true_iff in G; destruct G as [_ G]);
        destruct (IH _ _ _ _ _ G eq_refl C)
          as [S [[W N] | (p1 & ms' & p2 & -> & S1 & N)]];
        (split; [exact S |]);
        (* the timer found further on stays the witness *)
        try (right;
             match goal with
             | |- context [?y :: p1 ++ _] => exists (y :: p1), ms', p2
             end;
             repeat split; assumption).
      * discriminate W.
      * right. exists [], ms, pre. repeat split; [| exact N].
        cbn [selectionAfter]. rewrite <- S. symmetry.
        apply selectionAfter_no_write. exact N.
      * left. split; assumption.
      * left. split; assumption.
      * left. split; assumption.
      * left. split; assumption.
      * left. split; assumption.
      * left. split; assumption.
Qed.

Lemma getCleanRender_guarded (env : Env) (selected : bool) :
  guarded selected false (log (fst (getCleanRender env (mkState selected [])))) = true.
Proof.
  unfold getCleanRender.
  destruct (negb (stagePresent env)); [reflexivity |].
  pose proof (captureCanvas_captures env
                (exportPixelRatio (isMobile env) (screenWidth env))) as C.
  destruct (captureCanvas env (exportPixelRatio (isMobile env) (screenWidth env)))
    as [steps captured].
  cbn [fst] in C.
  destruct selected, captured;
    cbn [fst log isSelected record setIsSelected app guarded];
    rewrite <- ?app_assoc; cbn [app guarded];
    rewrite ?(guarded_captures steps _ C); try reflexivity.
  all: rewrite <- (app_nil_r steps); apply (guarded_captures steps [] C).
Qed.

(** C6: whatever the selection state when the export starts, every capture
    step of [getCleanRender] comes after a timer that started with the
    overlay deselected, with no write of the selection in between; and
    whenever the returned promise settles, resolved or rejected, the
    selection state afterwards is the one before. *)
Theorem getCleanRender_restores_selection (env : Env) (selected : bool) :
  (forall pre e post,
     log (fst (getCleanRender env (mkState selected []))) = pre ++ e :: post ->
     isCapture e = true ->
     exists p1 ms p2,
       pre = p1 ++ EvTimeout ms :: p2 /\
       selectionAfter selected p1 = false /\
       forallb (fun x => negb (writesSelection x)) p2 = true) /\
  (snd (getCleanRender env (mkState selected [])) <> Pending ->
   isSelected (fst (getCleanRender env (mkState selected []))) = selected) /\
  isSelected (fst (getCleanRender env (mkState selected [])))
    = selectionAfter selected (log (fst (getCleanRender env (mkState selected [])))).
Proof.
  split; [| split].
  - intros pre e post E C.
    destruct (guarded_sound _ selected false pre post e
                (getCleanRender_guarded env selected) E C)
      as [_ [[W _] | H]]; [discriminate W | exact H].
  - unfold getCleanRender.
    destruct (negb (stagePresent env)); [reflexivity |].
    destruct (captureCanvas env (exportPixelRatio (isMobile env) (screenWidth env)))
      as [steps captured].
    destruct selected, captured; cbn; intros H; try reflexivity;
      exfalso; apply H; reflexivity.
  - unfold getCleanRender.
    destruct (negb (stagePresent env)); [reflexivity |].
    pose proof (captureCanvas_captures env
                  (exportPixelRatio (isMobile env) (screenWidth env))) as C.
    destruct (captureCanvas env (exportPixelRatio (isMobile env) (screenWidth env)))
      as [steps captured].
    cbn [fst] in C.
    destruct selected, captured;
      cbn [fst log isSelected record setIsSelected app selectionAfter];
      rewrite <- ?app_assoc; cbn [app selectionAfter];
      rewrite ?(selectionAfter_captures _ steps _ C); try reflexivity.
    all: rewrite <- (app_nil_r steps); rewrite (selectionAfter_captures _ steps [] C);
      reflexivity.
Qed.

Lemma getCleanRender_restores_selection_witness :
  snd (getCleanRender phoneEnv (mkState true [])) <> Pending /\
  isSelected (fst (getCleanRender phoneEnv (mkState true []))) = true.
Proof.
  assert (H : snd (getCleanRender phoneEnv (mkState true [])) <> Pending)
    by (vm_compute; discriminate).
  split; [exact H |].
  exact (proj1 (proj2 (getCleanRender_restores_selection phoneEnv true)) H).
Defined.

Lemma encodeCanvas_small (env : Env) (fb url : string) :
  In (EvCanvasToDataURL (Some url)) (fst (encodeCanvas env fb)) ->
  (Z.of_nat (String.length url) < 10000)%Z ->
  snd (encodeCanvas env fb) = Resolved fb.
Proof.
  unfold encodeCanvas, after, done. intros H L.
  destruct (canvasEncode env) as [hq |]; [| reflexivity].
  destruct (Z.ltb_spec (Z.of_nat (String.length hq)) 10000) as [S | S]; [reflexivity |].
  cbn in H. destruct H as [H | []]. injection H as ->. lia.
Qed.

Lemma drawCalendar_small (env : Env) (fb url : string) (scaleX scaleY : Q) :
  In (EvCanvasToDataURL (Some url)) (fst (drawCalendar env fb scaleX scaleY)) ->
  (Z.of_nat (String.length url) < 10000)%Z ->
  snd (drawCalendar env fb scaleX scaleY) = Resolved fb.
Proof.
  unfold drawCalendar, after, done. intros H L.
  destruct (calendarImage env) as [calendar |];
    [| exact (encodeCanvas_small env fb url H L)].
  destruct (ensureImageLoaded calendar); try (destruct H; fail); try reflexivity.
  destruct (drawCalendarThrows env); [reflexivity |].
  cbn [fst snd app In] in *. destruct H as [H | H]; [discriminate H |].
  exact (encodeCanvas_small env fb url H L).
Qed.

Lemma manualDrawing_small (env : Env) (fb url : string) (fw fh : Q) :
  In (EvCanvasToDataURL (Some url)) (fst (manualDrawing env fb fw fh)) ->
  (Z.of_nat (String.length url) < 10000)%Z ->
  snd (manualDrawing env fb fw fh) = Resolved fb.
Proof.
  unfold manualDrawing, after, done. intros H L.
  destruct (displayImage env) as [photo |]; [| reflexivity].
  destruct (ensureImageLoaded photo); try (destruct H; fail); try reflexivity.
  destruct (drawPhotoThrows env); [reflexivity |].
  cbn [fst snd app In] in *. destruct H as [H | H]; [discriminate H |].
  exact (drawCalendar_small env fb url _ _ H L).
Qed.

(** The retry encodes no off-screen canvas. *)
Lemma retryCapture_no_encode (env : Env) (ratio : Q) (encoded : option string) :
  ~ In (EvCanvasToDataURL encoded) (fst (retryCapture env ratio)).
Proof.
  unfold retryCapture, after, done.
  destruct (simpleCapture env); cbn; intros [H | []]; discriminate H.
Qed.

Lemma captureCanvas_small (env : Env) (ratio : Q) (url : string) :
  In (EvCanvasToDataURL (Some url)) (fst (captureCanvas env ratio)) ->
  (Z.of_nat (String.length url) < 10000)%Z ->
  exists direct,
    directCapture env = Some direct /\ snd (captureCanvas env ratio) = Resolved direct.
Proof.
  pose proof (retryCapture_no_encode env ratio (Some url)) as N.
  unfold captureCanvas, after, done. intros H L.
  destruct (directCapture env) as [dataUrl |].
  - exists dataUrl. split; [reflexivity |].
    destruct (negb (isMobile env || isIOSDevice env || isAndroidDevice env));
      [reflexivity |].
    destruct (sizingThrows env).
    { exfalso. cbn [fst snd app In] in H.
      destruct H as [H | H]; [discriminate H | exact (N H)]. }
    destruct (offscreenSize (stageWidth env) (stageHeight env) ratio) as [fw fh].
    destruct (negb (contextAvailable env)); [reflexivity |].
    destruct (fillThrows env).
    { exfalso. cbn [fst snd app In] in H.
      destruct H as [H | [H | H]]; try discriminate H. exact (N H). }
    cbn [fst snd app In] in *.
    destruct H as [H | [H | [H | H]]]; try discriminate H.
    exact (manualDrawing_small env dataUrl url fw fh H L).
  - exfalso. cbn [fst snd app In] in H.
    destruct H as [H | H]; [discriminate H | exact (N H)].
Qed.

(** C7: when the manual composite encodes the off-screen canvas to a data
    URL shorter than 10000, the export resolves with the data URL of the
    direct capture: no error reaches the caller and the composite is not
    returned. *)
Theorem small_composite_falls_back (env : Env) (selected : bool) (url : string) :
  In (EvCanvasToDataURL (Some url))
     (log (fst (getCleanRender env (mkState selected [])))) ->
  (Z.of_nat (String.length url) < 10000)%Z ->
  exists direct,
    directCapture env = Some direct /\
    In (EvStageToDataURL (exportPixelRatio (isMobile env) (screenWidth env)))
       (log (fst (getCleanRender env (mkState selected [])))) /\
    snd (getCleanRender env (mkState selected [])) = Resolved direct.
Proof.
  unfold getCleanRender. intros H L.
  destruct (negb (stagePresent env)); [destruct H |].
  pose proof (captureCanvas_small env
                (exportPixelRatio (isMobile env) (screenWidth env)) url) as S.
  assert (D : In (EvStageToDataURL (exportPixelRatio (isMobile env) (screenWidth env)))
                (fst (captureCanvas env
                        (exportPixelRatio (isMobile env) (screenWidth env)))))
    by (unfold captureCanvas, after; left; reflexivity).
  destruct (captureCanvas env (exportPixelRatio (isMobile env) (screenWidth env)))
    as [steps captured].
  cbn [fst snd] in S, D.
  assert (Hs : In (EvCanvasToDataURL (Some url)) steps).
  { destruct selected, captured;
      cbn [fst log isSelected record setIsSelected app] in H;
      repeat match goal with
             | K : In _ (_ :: _) |- _ => destruct K as [K | K]; [discriminate K |]
             | K : In _ (_ ++ _) |- _ =>
                 apply in_app_or in K; destruct K as [K | K]; [assumption |]
             | K : In _ [] |- _ => destruct K
             end;
      try assumption. }
  destruct (S Hs L) as (direct & E & ->). exists direct.
  split; [exact E |]. split; [| destruct selected; reflexivity].
  destruct selected; cbn [fst log isSelected record setIsSelected app];
    repeat first [exact D | apply in_or_app; left; exact D | right].
Qed.

Lemma small_composite_falls_back_witness :
  In (EvCanvasToDataURL (Some "data:image/png;base64,iVBORw0KGgo="%string))
     (log (fst (getCleanRender phoneEnv (mkState true [])))) /\
  (Z.of_nat (String.length "data:image/png;base64,iVBORw0KGgo="%string) < 10000)%Z /\
  snd (getCleanRender phoneEnv (mkState true [])) = Resolved "data:image/png;base64,direct"%string.
Proof.
  assert (H : In (EvCanvasToDataURL (Some "data:image/png;base64,iVBORw0KGgo="%string))
                (log (fst (getCleanRender phoneEnv (mkState true [])))))
    by (vm_compute; tauto).
  assert (L : (Z.of_nat (String.length "data:image/png;base64,iVBORw0KGgo="%string) < 10000)%Z)
    by reflexivity.
  split; [exact H |]. split; [exact L |].
  destruct (small_composite_falls_back phoneEnv true _ H L) as (direct & E & _ & R).
  rewrite R. f_equal. injection E as <-. reflexivity.
Defined.

End CompositorFacts.

(** * Further properties *)

(** ** Overlay geometry *)

Section OverlayExtras.
Import Geometry.
Open Scope Q_scope.

Lemma Qmax_left (a b : Q) : b <= a -> Qmax a b = a.
Proof.
  intros H. unfold Qmax, GenericMinMax.gmax.
  destruct (a ?= b) eqn:E; try reflexivity.
  apply Qlt_alt in E. lra.
Qed.

Lemma Qmax_right (a b : Q) : a < b -> Qmax a b = b.
Proof.
  intros H. unfold Qmax, GenericMinMax.gmax.
  destruct (a ?= b) eqn:E; try reflexivity.
  - apply Qeq_alt in E. lra.
  - apply Qgt_alt in E. lra.
Qed.

Lemma constrained_idempotent (v size stage : Q) :
  constrained (constrained v size stage) size stage = constrained v size stage.
Proof.
  unfold constrained at 2 3.
  destruct (Qltb_cases v 0) as [[E1 H1] | [E1 H1]]; rewrite E1.
  - unfold constrained.
    destruct (Qltb_cases 0 0) as [[E2 H2] | [E2 H2]]; rewrite E2; [lra |].
    destruct (Qltb_cases stage (0 + size)) as [[E3 H3] | [E3 H3]]; rewrite E3;
      [apply Qmax_left; lra | reflexivity].
  - destruct (Qltb_cases stage (v + size)) as [[E2 H2] | [E2 H2]]; rewrite E2.
    + destruct (Qlt_le_dec 0 (stage - size)) as [P | P].
      * rewrite (Qmax_right 0 (stage - size) P). unfold constrained.
        destruct (Qltb_cases (stage - size) 0) as [[E3 H3] | [E3 H3]]; rewrite E3;
          [lra |].
        destruct (Qltb_cases stage (stage - size + size)) as [[E4 H4] | [E4 H4]];
          rewrite E4; [lra | reflexivity].
      * rewrite (Qmax_left 0 (stage - size) P). unfold constrained.
        destruct (Qltb_cases 0 0) as [[E3 H3] | [E3 H3]]; rewrite E3; [lra |].
        destruct (Qltb_cases stage (0 + size)) as [[E4 H4] | [E4 H4]]; rewrite E4;
          [apply Qmax_left; exact P | reflexivity].
    + unfold constrained. rewrite E1, E2. reflexivity.
Qed.

Lemma keepCalendarWithinBounds_coordinates (photoSize : Size) (a : Attrs) :
  keepCalendarWithinBounds photoSize a =
  {| attr_x := constrained (attr_x a) (attr_width a) (size_width photoSize);
     attr_y := constrained (attr_y a) (attr_height a) (size_height photoSize);
     attr_width := attr_width a;
     attr_height := attr_height a;
     attr_id := attr_id a |}.
Proof. reflexivity. Qed.

(** X1: a position already inside the stage is returned as it is: the whole
    record is unchanged. *)
Theorem keepCalendarWithinBounds_in_bounds (photoSize : Size) (a : Attrs) :
  0 <= attr_x a -> attr_x a + attr_width a <= size_width photoSize ->
  0 <= attr_y a -> attr_y a + attr_height a <= size_height photoSize ->
  keepCalendarWithinBounds photoSize a = a.
Proof.
  intros X R Y B. unfold keepCalendarWithinBounds.
  apply Qltb_false in X. apply Qltb_false in R.
  apply Qltb_false in Y. apply Qltb_false in B.
  rewrite X, R, Y, B. destruct a; reflexivity.
Qed.

Lemma keepCalendarWithinBounds_in_bounds_witness :
  0 <= attr_x landscapeAttrs /\
  attr_x landscapeAttrs + attr_width landscapeAttrs <= size_width landscapeStage /\
  0 <= attr_y landscapeAttrs /\
  attr_y landscapeAttrs + attr_height landscapeAttrs <= size_height landscapeStage /\
  keepCalendarWithinBounds landscapeStage landscapeAttrs = landscapeAttrs.
Proof.
  assert (X : 0 <= attr_x landscapeAttrs) by (vm_compute; discriminate).
  assert (R : attr_x landscapeAttrs + attr_width landscapeAttrs
              <= size_width landscapeStage) by (vm_compute; discriminate).
  assert (Y : 0 <= attr_y landscapeAttrs) by (vm_compute; discriminate).
  assert (B : attr_y landscapeAttrs + attr_height landscapeAttrs
              <= size_height landscapeStage) by (vm_compute; discriminate).
  repeat (split; [assumption |]).
  exact (keepCalendarWithinBounds_in_bounds landscapeStage landscapeAttrs X R Y B).
Defined.

(** X2: clamping is idempotent: applied to its own result it changes
    nothing, whatever the input and the stage. *)
Theorem keepCalendarWithinBounds_idempotent (photoSize : Size) (a : Attrs) :
  keepCalendarWithinBounds photoSize (keepCalendarWithinBounds photoSize a)
  = keepCalendarWithinBounds photoSize a.
Proof.
  rewrite (keepCalendarWithinBounds_coordinates photoSize a).
  rewrite keepCalendarWithinBounds_coordinates. cbn [attr_x attr_y attr_width attr_height attr_id].
  rewrite !constrained_idempotent. reflexivity.
Qed.

(** X3: an overlay that fits the stage in a direction is committed at the
    in-bounds coordinate nearest to the requested one, [max 0 (min v (stage -
    size))]; an overlay larger than the stage in a direction is always
    committed at 0 there. *)
Theorem keepCalendarWithinBounds_nearest (photoSize : Size) (a : Attrs) :
  (attr_width a <= size_width photoSize ->
   attr_x (keepCalendarWithinBounds photoSize a)
   == Qmax 0 (Qmin (attr_x a) (size_width photoSize - attr_width a))) /\
  (size_width photoSize < attr_width a ->
   attr_x (keepCalendarWithinBounds photoSize a) == 0) /\
  (attr_height a <= size_height photoSize ->
   attr_y (keepCalendarWithinBounds photoSize a)
   == Qmax 0 (Qmin (attr_y a) (size_height photoSize - attr_height a))) /\
  (size_height photoSize < attr_height a ->
   attr_y (keepCalendarWithinBounds photoSize a) == 0).
Proof.
  assert (G : forall v size stage,
             (size <= stage -> constrained v size stage == Qmax 0 (Qmin v (stage - size)))
             /\ (stage < size -> constrained v size stage == 0)).
  { intros v size stage. unfold constrained. split; intros H.
    - destruct (Qmin_cases v (stage - size)) as [[Lm Em] | [Lm Em]];
        destruct (Qmax_cases 0 (Qmin v (stage - size))) as [[Ln En] | [Ln En]];
        rewrite En; rewrite Em in *;
        destruct (Qltb_cases v 0) as [[E1 H1] | [E1 H1]]; rewrite E1;
        try (destruct (Qltb_cases stage (v + size)) as [[E2 H2] | [E2 H2]]; rewrite E2);
        try lra; try reflexivity;
        destruct (Qmax_cases 0 (stage - size)) as [[Lp Ep] | [Lp Ep]]; rewrite Ep; lra.
    - destruct (Qltb_cases v 0) as [[E1 H1] | [E1 H1]]; rewrite E1; [reflexivity |].
      destruct (Qltb_cases stage (v + size)) as [[E2 H2] | [E2 H2]]; rewrite E2; [| lra].
      rewrite Qmax_left by lra. reflexivity. }
  rewrite keepCalendarWithinBounds_coordinates. cbn [attr_x attr_y].
  destruct (G (attr_x a) (attr_width a) (size_width photoSize)) as [G1 G2].
  destruct (G (attr_y a) (attr_height a) (size_height photoSize)) as [G3 G4].
  repeat split; assumption.
Qed.

Lemma keepCalendarWithinBounds_nearest_witness :
  attr_width landscapeAttrs <= size_width landscapeStage /\
  attr_x (onDragEnd landscapeStage landscapeAttrs 900 (-20))
  == Qmax 0 (Qmin 900 (size_width landscapeStage - attr_width landscapeAttrs)).
Proof.
  assert (W : attr_width landscapeAttrs <= size_width landscapeStage)
    by (vm_compute; discriminate).
  split; [exact W |].
  exact (proj1 (keepCalendarWithinBounds_nearest landscapeStage
                  {| attr_x := 900; attr_y := -20;
                     attr_width := attr_width landscapeAttrs;
                     attr_height := attr_height landscapeAttrs;
                     attr_id := attr_id landscapeAttrs |}) W).
Defined.

(** X4: a candidate box of at least 50 by 50 that lies within the stage is
    accepted as it is. *)
Theorem boundBoxFunc_accepts_in_bounds (photoSize : Size) (oldBox newBox : Box) :
  50 <= box_width newBox -> 50 <= box_height newBox ->
  0 <= box_x newBox -> 0 <= box_y newBox ->
  box_x newBox + box_width newBox <= size_width photoSize ->
  box_y newBox + box_height newBox <= size_height photoSize ->
  boundBoxFunc photoSize oldBox newBox = newBox.
Proof.
  intros W H X Y R B. unfold boundBoxFunc.
  apply Qltb_false in W. apply Qltb_false in H. apply Qltb_false in X.
  apply Qltb_false in Y. apply Qltb_false in R. apply Qltb_false in B.
  rewrite W, H, X, Y, R, B. reflexivity.
Qed.

Lemma boundBoxFunc_accepts_in_bounds_witness :
  50 <= box_width (mkBox 100 80 300 255 0) /\ 50 <= box_height (mkBox 100 80 300 255 0) /\
  0 <= box_x (mkBox 100 80 300 255 0) /\ 0 <= box_y (mkBox 100 80 300 255 0) /\
  box_x (mkBox 100 80 300 255 0) + box_width (mkBox 100 80 300 255 0)
    <= size_width landscapeStage /\
  box_y (mkBox 100 80 300 255 0) + box_height (mkBox 100 80 300 255 0)
    <= size_height landscapeStage /\
  boundBoxFunc landscapeStage (boxOf landscapeAttrs) (mkBox 100 80 300 255 0)
    = mkBox 100 80 300 255 0.
Proof.
  assert (W : 50 <= box_width (mkBox 100 80 300 255 0)) by (vm_compute; discriminate).
  assert (H : 50 <= box_height (mkBox 100 80 300 255 0)) by (vm_compute; discriminate).
  assert (X : 0 <= box_x (mkBox 100 80 300 255 0)) by (vm_compute; discriminate).
  assert (Y : 0 <= box_y (mkBox 100 80 300 255 0)) by (vm_compute; discriminate).
  assert (R : box_x (mkBox 100 80 300 255 0) + box_width (mkBox 100 80 300 255 0)
              <= size_width landscapeStage) by (vm_compute; discriminate).
  assert (B : box_y (mkBox 100 80 300 255 0) + box_height (mkBox 100 80 300 255 0)
              <= size_height landscapeStage) by (vm_compute; discriminate).
  repeat (split; [assumption |]).
  exact (boundBoxFunc_accepts_in_bounds landscapeStage (boxOf landscapeAttrs)
           (mkBox 100 80 300 255 0) W H X Y R B).
Defined.

(** The horizontal and the vertical half of the constrained box. *)
Lemma constrainBox_horizontal (photoSize : Size) (newBox : Box) :
  0 <= box_x (constrainBox photoSize newBox) /\
  (~ (box_x newBox < 0 /\ size_width photoSize < box_x newBox + box_width newBox) ->
   Qmax 0 (box_x newBox) + 50 <= size_width photoSize ->
   box_x (constrainBox photoSize newBox) + box_width (constrainBox photoSize newBox)
   <= size_width photoSize).
Proof.
  unfold constrainBox.
  destruct (Qmax_cases 0 (box_x newBox)) as [[Lm Em] | [Lm Em]]; rewrite Em.
  all: split; [| intros N Room]; qsplit;
    cbn [box_x box_width set_box_x set_box_y set_box_width set_box_height] in *;
    try lra.
  all: exfalso; apply N; split; lra.
Qed.

Lemma constrainBox_vertical (photoSize : Size) (newBox : Box) :
  0 <= box_y (constrainBox photoSize newBox) /\
  (~ (box_y newBox < 0 /\ size_height photoSize < box_y newBox + box_height newBox) ->
   Qmax 0 (box_y newBox) + 50 <= size_height photoSize ->
   box_y (constrainBox photoSize newBox) + box_height (constrainBox photoSize newBox)
   <= size_height photoSize).
Proof.
  unfold constrainBox.
  destruct (Qmax_cases 0 (box_y newBox)) as [[Lm Em] | [Lm Em]]; rewrite Em.
  all: split; [| intros N Room]; qsplit;
    cbn [box_y box_height set_box_x set_box_y set_box_width set_box_height] in *;
    try lra.
  all: exfalso; apply N; split; lra.
Qed.

Lemma boundBoxFunc_accepted_position (photoSize : Size) (oldBox newBox : Box) :
  50 <= box_width newBox -> 50 <= box_height newBox ->
  0 <= box_x (boundBoxFunc photoSize oldBox newBox) /\
  0 <= box_y (boundBoxFunc photoSize oldBox newBox).
Proof.
  intros W H.
  destruct (constrainBox_horizontal photoSize newBox) as [CX _].
  destruct (constrainBox_vertical photoSize newBox) as [CY _].
  unfold boundBoxFunc.
  rewrite (proj2 (Qltb_false _ _) W), (proj2 (Qltb_false _ _) H). cbn [orb].
  destruct (Qltb_cases (box_x newBox) 0) as [[E1 H1] | [E1 H1]]; rewrite E1; cbn [orb];
    [split; assumption |].
  destruct (Qltb_cases (box_y newBox) 0) as [[E2 H2] | [E2 H2]]; rewrite E2; cbn [orb];
    [split; assumption |].
  match goal with |- context [if ?b then _ else _] => destruct b end;
    split; assumption.
Qed.

(** X5: for a candidate of at least 50 by 50, the box [boundBoxFunc]
    returns has a non-negative position; and in each direction where the
    candidate does not stick out of the stage on both sides at once and the
    stage leaves 50 units after the candidate's clamped position, the
    returned box ends within the stage. *)
Theorem boundBoxFunc_keeps_inside (photoSize : Size) (oldBox newBox : Box) :
  50 <= box_width newBox -> 50 <= box_height newBox ->
  0 <= box_x (boundBoxFunc photoSize oldBox newBox) /\
  0 <= box_y (boundBoxFunc photoSize oldBox newBox) /\
  (~ (box_x newBox < 0 /\ size_width photoSize < box_x newBox + box_width newBox) ->
   Qmax 0 (box_x newBox) + 50 <= size_width photoSize ->
   box_x (boundBoxFunc photoSize oldBox newBox)
   + box_width (boundBoxFunc photoSize oldBox newBox) <= size_width photoSize) /\
  (~ (box_y newBox < 0 /\ size_height photoSize < box_y newBox + box_height newBox) ->
   Qmax 0 (box_y newBox) + 50 <= size_height photoSize ->
   box_y (boundBoxFunc photoSize oldBox newBox)
   + box_height (boundBoxFunc photoSize oldBox newBox) <= size_height photoSize).
Proof.
  intros W H.
  destruct (constrainBox_horizontal photoSize newBox) as [CX CR].
  destruct (constrainBox_vertical photoSize newBox) as [CY CB].
  unfold boundBoxFunc.
  rewrite (proj2 (Qltb_false _ _) W), (proj2 (Qltb_false _ _) H). cbn [orb].
  destruct (Qltb_cases (box_x newBox) 0) as [[E1 H1] | [E1 H1]]; rewrite E1; cbn [orb];
    [repeat split; assumption |].
  destruct (Qltb_cases (box_y newBox) 0) as [[E2 H2] | [E2 H2]]; rewrite E2; cbn [orb];
    [repeat split; assumption |].
  destruct (Qltb_cases (size_width photoSize) (box_x newBox + box_width newBox))
    as [[E3 H3] | [E3 H3]]; rewrite E3; cbn [orb]; [repeat split; assumption |].
  destruct (Qltb_cases (size_height photoSize) (box_y newBox + box_height newBox))
    as [[E4 H4] | [E4 H4]]; rewrite E4; [repeat split; assumption |].
  repeat split; try assumption; intros; assumption.
Qed.

Lemma boundBoxFunc_keeps_inside_witness :
  50 <= box_width (mkBox (-100) 580 120 100 0) /\
  50 <= box_height (mkBox (-100) 580 120 100 0) /\
  0 <= box_x (boundBoxFunc landscapeStage (boxOf landscapeAttrs)
                (mkBox (-100) 580 120 100 0)) /\
  0 <= box_y (boundBoxFunc landscapeStage (boxOf landscapeAttrs)
                (mkBox (-100) 580 120 100 0)).
Proof.
  assert (W : 50 <= box_width (mkBox (-100) 580 120 100 0)) by (vm_compute; discriminate).
  assert (H : 50 <= box_height (mkBox (-100) 580 120 100 0)) by (vm_compute; discriminate).
  split; [exact W |]. split; [exact H |].
  pose proof (boundBoxFunc_keeps_inside landscapeStage (boxOf landscapeAttrs)
                (mkBox (-100) 580 120 100 0) W H) as K.
  split; [exact (proj1 K) | exact (proj1 (proj2 K))].
Defined.

(** X6: whatever the node reports when a resize ends, the committed overlay
    is no larger than the stage and lies within it: only the minimum size
    is not enforced here. *)
Theorem handleTransformEnd_within_stage (photoSize : Size) (calendarAttrs : Attrs)
    (node : Node) :
  let a := handleTransformEnd photoSize calendarAttrs node in
  attr_width a <= size_width photoSize /\ attr_height a <= size_height photoSize /\
  0 <= attr_x a /\ 0 <= attr_y a /\
  attr_x a + attr_width a <= size_width photoSize /\
  attr_y a + attr_height a <= size_height photoSize /\
  attr_id a = attr_id calendarAttrs.
Proof.
  cbv zeta. unfold handleTransformEnd.
  set (n := {| attr_x := node_x node; attr_y := node_y node;
               attr_width := Qmin (node_width node * node_scaleX node)
                               (size_width photoSize);
               attr_height := Qmin (node_height node * node_scaleY node)
                                (size_height photoSize);
               attr_id := attr_id calendarAttrs |}).
  assert (W : attr_width n <= size_width photoSize) by (cbn; apply Q.le_min_r).
  assert (H : attr_height n <= size_height photoSize) by (cbn; apply Q.le_min_r).
  destruct (keepCalendarWithinBounds_nonneg photoSize n) as [X Y].
  pose proof (keepCalendarWithinBounds_right photoSize n W) as R.
  pose proof (keepCalendarWithinBounds_bottom photoSize n H) as B.
  cbn [keepCalendarWithinBounds attr_width attr_height attr_id] in *.
  repeat split; assumption.
Qed.

(** X7: throughout a resize of an overlay that starts at a non-negative
    position with at least the minimum size, the box the Transformer holds
    keeps a non-negative position and at least the minimum size, whatever
    candidates are proposed. *)
Theorem resizeBox_position_and_minimum (photoSize : Size) (a : Attrs)
    (candidates : list Box) :
  0 <= attr_x a -> 0 <= attr_y a -> 50 <= attr_width a -> 50 <= attr_height a ->
  0 <= box_x (resizeBox photoSize a candidates) /\
  0 <= box_y (resizeBox photoSize a candidates) /\
  50 <= box_width (resizeBox photoSize a candidates) /\
  50 <= box_height (resizeBox photoSize a candidates).
Proof.
  intros X Y W H. unfold resizeBox.
  assert (G : forall cs start,
             0 <= box_x start -> 0 <= box_y start ->
             50 <= box_width start -> 50 <= box_height start ->
             0 <= box_x (fold_left (boundBoxFunc photoSize) cs start) /\
             0 <= box_y (fold_left (boundBoxFunc photoSize) cs start) /\
             50 <= box_width (fold_left (boundBoxFunc photoSize) cs start) /\
             50 <= box_height (fold_left (boundBoxFunc photoSize) cs start)).
  { induction cs as [| c rest IH]; intros start SX SY SW SH; cbn [fold_left].
    - repeat split; assumption.
    - destruct (boundBoxFunc_floor photoSize start c SW SH) as [W' H'].
      destruct (boundBoxFunc_paths photoSize start c)
        as [E | [(E & CW & CH) | (E & CW & CH)]].
      + apply IH; rewrite ?E; assumption.
      + destruct (constrainBox_horizontal photoSize c) as [PX _].
        destruct (constrainBox_vertical photoSize c) as [PY _].
        rewrite E in *. apply IH; assumption.
      + destruct (boundBoxFunc_accepted_position photoSize start c CW CH) as [PX PY].
        apply IH; assumption. }
  apply G; cbn [boxOf box_x box_y box_width box_height]; assumption.
Qed.

Lemma resizeBox_position_and_minimum_witness :
  0 <= attr_x landscapeAttrs /\ 0 <= attr_y landscapeAttrs /\
  50 <= attr_width landscapeAttrs /\ 50 <= attr_height landscapeAttrs /\
  0 <= box_x (resizeBox landscapeStage landscapeAttrs
                [mkBox (-100) 580 120 100 0; mkBox 10 10 20 700 0]) /\
  50 <= box_width (resizeBox landscapeStage landscapeAttrs
                     [mkBox (-100) 580 120 100 0; mkBox 10 10 20 700 0]).
Proof.
  assert (X : 0 <= attr_x landscapeAttrs) by (vm_compute; discriminate).
  assert (Y : 0 <= attr_y landscapeAttrs) by (vm_compute; discriminate).
  assert (W : 50 <= attr_width landscapeAttrs) by (vm_compute; discriminate).
  assert (H : 50 <= attr_height landscapeAttrs) by (vm_compute; discriminate).
  repeat (split; [assumption |]).
  pose proof (resizeBox_position_and_minimum landscapeStage landscapeAttrs
                [mkBox (-100) 580 120 100 0; mkBox 10 10 20 700 0] X Y W H) as K.
  split; [exact (proj1 K) | exact (proj1 (proj2 (proj2 K)))].
Defined.

End OverlayExtras.

(** ** The sizing effect *)

Section SizingExtras.
Import Geometry.
Open Scope Q_scope.

Lemma shrink_ratio (m v : Q) :
  0 < m -> m < v -> 0 < m / v /\ m / v < 1 /\ v * (m / v) == m.
Proof.
  intros M V. assert (P : 0 < v) by lra.
  split; [apply Qlt_shift_div_l; lra |].
  split; [apply Qlt_shift_div_r; lra |].
  apply Qmult_div_r. lra.
Qed.

Variables (isMobile : bool) (vp : Viewport) (imgWidth imgHeight : Q).
Hypothesis imgWidth_pos : 0 < imgWidth.
Hypothesis imgHeight_pos : 0 < imgHeight.
Hypothesis innerWidth_pos : 0 < innerWidth vp.
Hypothesis innerHeight_pos : 0 < innerHeight vp.

Lemma maxWidth_pos : 0 < maxWidthFor isMobile vp.
Proof. unfold maxWidthFor. destruct isMobile; lra. Qed.

Lemma maxHeight_pos : 0 < maxHeightFor isMobile vp.
Proof. unfold maxHeightFor. destruct isMobile; lra. Qed.

Lemma stageFor_facts :
  let s := stageFor isMobile vp imgWidth imgHeight in
  0 < size_width s /\ 0 < size_height s /\
  size_width s <= maxWidthFor isMobile vp /\
  size_height s <= maxHeightFor isMobile vp /\
  size_width s <= imgWidth /\ size_height s <= imgHeight /\
  size_width s * imgHeight == size_height s * imgWidth.
Proof.
  pose proof maxWidth_pos as MW. pose proof maxHeight_pos as MH.
  cbv zeta. unfold stageFor. fold (maxWidthFor isMobile vp) (maxHeightFor isMobile vp).
  set (mw := maxWidthFor isMobile vp) in *. set (mh := maxHeightFor isMobile vp) in *.
  destruct (Qltb_cases mw imgWidth) as [[E1 H1] | [E1 H1]]; rewrite E1.
  - destruct (shrink_ratio mw imgWidth MW H1) as (R0 & R1 & RE).
    set (r1 := mw / imgWidth) in *.
    assert (P1 : 0 < imgHeight * r1) by nra.
    destruct (Qltb_cases mh (imgHeight * r1)) as [[E2 H2] | [E2 H2]]; rewrite E2;
      cbn [size_width size_height].
    + destruct (shrink_ratio mh (imgHeight * r1) MH H2) as (S0 & S1 & SE).
      set (r2 := mh / (imgHeight * r1)) in *.
      split; [nra |]. split; [nra |]. split; [nra |].
      split; [rewrite SE; lra |]. split; [nra |]. split; [nra |].
      setoid_replace (mw * r2 * imgHeight) with (imgWidth * r1 * r2 * imgHeight)
        by (rewrite <- RE; ring). ring.
    + split; [lra |]. split; [lra |]. split; [lra |].
      split; [lra |]. split; [lra |]. split; [nra |].
      rewrite <- RE. ring.
  - destruct (Qltb_cases mh imgHeight) as [[E2 H2] | [E2 H2]]; rewrite E2;
      cbn [size_width size_height].
    + destruct (shrink_ratio mh imgHeight MH H2) as (S0 & S1 & SE).
      set (r2 := mh / imgHeight) in *.
      split; [nra |]. split; [nra |]. split; [nra |].
      split; [rewrite SE; lra |]. split; [nra |]. split; [nra |].
      ring.
    + split; [lra |]. split; [lra |]. split; [lra |].
      split; [lra |]. split; [lra |]. split; [lra |]. ring.
Qed.

(** X8: for a photo and a window of positive dimensions the stage has
    positive dimensions and exceeds neither [maxWidth] nor [maxHeight] (95%
    and 35% of the window on mobile, 80% and 60% otherwise). *)
Theorem stageFor_within_limits :
  0 < size_width (stageFor isMobile vp imgWidth imgHeight) /\
  0 < size_height (stageFor isMobile vp imgWidth imgHeight) /\
  size_width (stageFor isMobile vp imgWidth imgHeight) <= maxWidthFor isMobile vp /\
  size_height (stageFor isMobile vp imgWidth imgHeight) <= maxHeightFor isMobile vp.
Proof.
  destruct stageFor_facts as (A & B & C & D & _). repeat split; assumption.
Qed.

(** X9: the stage keeps the photo's aspect ratio and never enlarges the
    photo; a photo within both limits is shown at its own size. *)
Theorem stageFor_keeps_aspect :
  size_width (stageFor isMobile vp imgWidth imgHeight) * imgHeight
    == size_height (stageFor isMobile vp imgWidth imgHeight) * imgWidth /\
  size_width (stageFor isMobile vp imgWidth imgHeight) <= imgWidth /\
  size_height (stageFor isMobile vp imgWidth imgHeight) <= imgHeight /\
  (imgWidth <= maxWidthFor isMobile vp -> imgHeight <= maxHeightFor isMobile vp ->
   stageFor isMobile vp imgWidth imgHeight
   = {| size_width := imgWidth; size_height := imgHeight |}).
Proof.
  destruct stageFor_facts as (_ & _ & _ & _ & E & F & G).
  split; [exact G |]. split; [exact E |]. split; [exact F |].
  intros W H. unfold stageFor.
  fold (maxWidthFor isMobile vp) (maxHeightFor isMobile vp).
  rewrite (proj2 (Qltb_false _ _) W), (proj2 (Qltb_false _ _) H). reflexivity.
Qed.

End SizingExtras.

Section PlacementExtras.
Import Geometry.
Open Scope Q_scope.

Lemma stageFor_within_limits_witness :
  0 < 4000 /\ 0 < 400 /\ 0 < innerWidth panoramaViewport /\
  0 < innerHeight panoramaViewport /\
  size_width panoramaStage <= maxWidthFor false panoramaViewport /\
  size_height panoramaStage <= maxHeightFor false panoramaViewport.
Proof.
  assert (A : 0 < 4000) by reflexivity. assert (B : 0 < 400) by reflexivity.
  assert (C : 0 < innerWidth panoramaViewport) by reflexivity.
  assert (D : 0 < innerHeight panoramaViewport) by reflexivity.
  repeat (split; [assumption |]).
  exact (proj2 (proj2 (stageFor_within_limits false panoramaViewport 4000 400 A B C D))).
Defined.

Lemma stageFor_keeps_aspect_witness :
  0 < 4000 /\ 0 < 400 /\ 0 < innerWidth panoramaViewport /\
  0 < innerHeight panoramaViewport /\
  size_width panoramaStage * 400 == size_height panoramaStage * 4000.
Proof.
  assert (A : 0 < 4000) by reflexivity. assert (B : 0 < 400) by reflexivity.
  assert (C : 0 < innerWidth panoramaViewport) by reflexivity.
  assert (D : 0 < innerHeight panoramaViewport) by reflexivity.
  repeat (split; [assumption |]).
  exact (proj1 (stageFor_keeps_aspect false panoramaViewport 4000 400 A B C D)).
Defined.

(** X10: the overlay is placed centred on the stage in both directions,
    with height 0.85 times its width, width the smaller of 60% of the stage
    width and 600, and the [id] it had; on a stage of non-negative width it
    lies horizontally within the stage. *)
Theorem placeCalendar_centred (photoSize : Size) (prevAttrs : Attrs) :
  let a := placeCalendar photoSize prevAttrs in
  attr_x a + attr_width a / 2 == size_width photoSize / 2 /\
  attr_y a + attr_height a / 2 == size_height photoSize / 2 /\
  attr_height a == 0.85 * attr_width a /\
  attr_width a == Qmin (0.6 * size_width photoSize) 600 /\
  attr_id a = attr_id prevAttrs /\
  (0 <= size_width photoSize ->
   0 <= attr_x a /\ attr_x a + attr_width a <= size_width photoSize).
Proof.
  cbv zeta. unfold placeCalendar.
  cbn [attr_x attr_y attr_width attr_height attr_id].
  set (w := Qmin (size_width photoSize * 0.6) 600).
  assert (EW : w == Qmin (0.6 * size_width photoSize) 600).
  { unfold w. apply Q.min_compat; [ring | reflexivity]. }
  split; [field |]. split; [field |]. split; [field |].
  split; [exact EW |]. split; [reflexivity |].
  intros SW.
  assert (L : w <= size_width photoSize * 0.6) by apply Q.le_min_l.
  split.
  - apply Qle_shift_div_l; lra.
  - setoid_replace ((size_width photoSize - w) / 2 + w)
      with ((size_width photoSize + w) / 2) by field. apply Qle_shift_div_r; lra.
Qed.

Lemma placeCalendar_centred_witness :
  0 <= size_width landscapeStage /\
  0 <= attr_x landscapeAttrs /\
  attr_x landscapeAttrs + attr_width landscapeAttrs <= size_width landscapeStage.
Proof.
  assert (S : 0 <= size_width landscapeStage) by (vm_compute; discriminate).
  split; [exact S |].
  exact (proj2 (proj2 (proj2 (proj2 (proj2
           (placeCalendar_centred landscapeStage initialAttrs))))) S).
Defined.

Lemma placeCalendar_fits (photoSize : Size) (prevAttrs : Attrs) :
  5000 / 51 <= size_width photoSize ->
  0.51 * size_width photoSize <= size_height photoSize ->
  sizeFits photoSize (placeCalendar photoSize prevAttrs) /\
  invariants photoSize (placeCalendar photoSize prevAttrs).
Proof.
  intros SW SH.
  assert (C : 5000 / 51 == 5000 # 51) by reflexivity. rewrite C in SW.
  unfold sizeFits, invariants, placeCalendar.
  cbn [attr_x attr_y attr_width attr_height].
  set (w := Qmin (size_width photoSize * 0.6) 600).
  assert (L : w <= size_width photoSize * 0.6) by apply Q.le_min_l.
  assert (L6 : w <= 600) by apply Q.le_min_r.
  assert (G : (1000 # 17) <= w).
  { unfold w. destruct (Qmin_cases (size_width photoSize * 0.6) 600) as [[Lm Em] | [Lm Em]];
      rewrite Em; lra. }
  assert (EH : w * (850 / 1000) == w * 0.85) by field.
  assert (X : 0 <= (size_width photoSize - w) / 2) by (apply Qle_shift_div_l; lra).
  assert (Y : 0 <= (size_height photoSize - w * (850 / 1000)) / 2)
    by (apply Qle_shift_div_l; [reflexivity | rewrite EH; lra]).
  assert (R : (size_width photoSize - w) / 2 + w <= size_width photoSize).
  { setoid_replace ((size_width photoSize - w) / 2 + w)
      with ((size_width photoSize + w) / 2) by field. apply Qle_shift_div_r; lra. }
  assert (B : (size_height photoSize - w * (850 / 1000)) / 2 + w * (850 / 1000)
              <= size_height photoSize).
  { setoid_replace ((size_height photoSize - w * (850 / 1000)) / 2 + w * (850 / 1000))
      with ((size_height photoSize + w * 0.85) / 2) by field.
    apply Qle_shift_div_r; lra. }
  rewrite EH in *. repeat split; try assumption; lra.
Qed.

Lemma committed_invariants_from_fit (photoSize : Size) (gs : list Gesture) :
  50 <= size_width photoSize -> 50 <= size_height photoSize ->
  forall a, sizeFits photoSize a -> Forall (invariants photoSize) (committed photoSize a gs).
Proof.
  intros SW SH. induction gs as [| g rest IH]; intros a F; cbn [committed].
  - constructor.
  - pose proof (applyGesture_invariants photoSize a g SW SH F) as I.
    constructor; [exact I |]. apply IH. apply invariants_sizeFits. exact I.
Qed.

(** X11: on a stage at least 5000/51 (about 98) wide and at least 0.51
    times as high as it is wide, the overlay the sizing effect places
    satisfies all six invariants, and so does the overlay committed after
    each gesture of any sequence that follows. *)
Theorem placed_overlay_keeps_invariants (photoSize : Size) (prevAttrs : Attrs)
    (gs : list Gesture) :
  5000 / 51 <= size_width photoSize ->
  0.51 * size_width photoSize <= size_height photoSize ->
  invariants photoSize (placeCalendar photoSize prevAttrs) /\
  Forall (invariants photoSize)
    (committed photoSize (placeCalendar photoSize prevAttrs) gs).
Proof.
  intros SW SH. destruct (placeCalendar_fits photoSize prevAttrs SW SH) as [F I].
  split; [exact I |].
  assert (C : 5000 / 51 == 5000 # 51) by reflexivity. rewrite C in SW.
  apply committed_invariants_from_fit; [lra | lra | exact F].
Qed.

Lemma placed_overlay_keeps_invariants_witness :
  5000 / 51 <= size_width landscapeStage /\
  0.51 * size_width landscapeStage <= size_height landscapeStage /\
  Forall (invariants landscapeStage)
    (committed landscapeStage landscapeAttrs wildGestures).
Proof.
  assert (SW : 5000 / 51 <= size_width landscapeStage) by (vm_compute; discriminate).
  assert (SH : 0.51 * size_width landscapeStage <= size_height landscapeStage)
    by (vm_compute; discriminate).
  split; [exact SW |]. split; [exact SH |].
  exact (proj2 (placed_overlay_keeps_invariants landscapeStage initialAttrs
                  wildGestures SW SH)).
Defined.

(** What every reachable overlay does keep: it is never wider than the
    stage, so each gesture commits it at a non-negative position and
    within the stage horizontally.  The height has no such bound after the
    sizing effect, and a drag does not restore one. *)
Lemma reachable_width_fits (photoSize : Size) (a : Attrs) :
  reachable photoSize a ->
  0 < size_width photoSize /\ attr_width a <= size_width photoSize.
Proof.
  induction 1 as [vp imgWidth imgHeight IW IH VW VH | photoSize a g R [P W]].
  - destruct (stageFor_facts (isMobileFor vp) vp imgWidth imgHeight IW IH VW VH)
      as (SW & _).
    split; [exact SW |]. unfold placeCalendar. cbn [attr_width].
    set (s := stageFor (isMobileFor vp) vp imgWidth imgHeight) in *.
    assert (L : Qmin (size_width s * 0.6) 600 <= size_width s * 0.6)
      by apply Q.le_min_l.
    lra.
  - split; [exact P |]. destruct g as [tx ty | candidates]; cbn [applyGesture].
    + exact W.
    + unfold handleTransformEnd, keepCalendarWithinBounds. cbn [attr_width].
      apply Q.le_min_r.
Qed.

Lemma reachable_gesture_horizontal (photoSize : Size) (a : Attrs) (g : Gesture) :
  reachable photoSize a ->
  0 <= attr_x (applyGesture photoSize a g) /\
  0 <= attr_y (applyGesture photoSize a g) /\
  attr_x (applyGesture photoSize a g) + attr_width (applyGesture photoSize a g)
  <= size_width photoSize.
Proof.
  intros R.
  destruct (reachable_width_fits photoSize (applyGesture photoSize a g)
              (reach_gesture photoSize a g R)) as [_ W].
  revert W. destruct g as [tx ty | candidates]; cbn [applyGesture];
    unfold onDragEnd, handleTransformEnd; cbv zeta;
    match goal with
    | |- context [keepCalendarWithinBounds ?s ?x] =>
        change (attr_width (keepCalendarWithinBounds s x)) with (attr_width x)
    end;
    intros W;
    (split; [apply keepCalendarWithinBounds_nonneg |]);
    (split; [apply keepCalendarWithinBounds_nonneg |]);
    apply keepCalendarWithinBounds_right; exact W.
Qed.

End PlacementExtras.

(** ** Month navigation and the calendar *)

Section NavigationExtras.
Import Navigation Calendar.
Open Scope Z_scope.

Lemma changeMonth_range (month year delta : Z) :
  0 <= fst (changeMonth month year delta) <= 11.
Proof.
  unfold changeMonth.
  destruct (Z.ltb_spec 11 (month + delta)); [cbn [fst]; lia |].
  destruct (Z.ltb_spec (month + delta) 0); cbn [fst]; lia.
Qed.

(** X12: whatever the month, the year and the delta it is given,
    [changeMonth] yields a month in 0..11 and a year that differs from the
    given one by one at most. *)
Theorem changeMonth_month_in_range (month year delta : Z) :
  0 <= fst (changeMonth month year delta) <= 11 /\
  year - 1 <= snd (changeMonth month year delta) <= year + 1.
Proof.
  unfold changeMonth.
  destruct (Z.ltb_spec 11 (month + delta)); [cbn [fst snd]; lia |].
  destruct (Z.ltb_spec (month + delta) 0); cbn [fst snd]; lia.
Qed.

Lemma changeMonth_count (month year delta : Z) :
  0 <= month <= 11 -> delta = 1 \/ delta = -1 ->
  12 * snd (changeMonth month year delta) + fst (changeMonth month year delta)
  = 12 * year + month + delta.
Proof.
  intros Hm Hd. unfold changeMonth.
  destruct (Z.ltb_spec 11 (month + delta)); [cbn [fst snd]; lia |].
  destruct (Z.ltb_spec (month + delta) 0); cbn [fst snd]; lia.
Qed.

Lemma navigate_count (deltas : list Z) :
  forall month year,
  0 <= month <= 11 ->
  Forall (fun delta => delta = 1 \/ delta = -1) deltas ->
  12 * snd (navigate (month, year) deltas) + fst (navigate (month, year) deltas)
  = 12 * year + month + fold_right Z.add 0 deltas /\
  0 <= fst (navigate (month, year) deltas) <= 11.
Proof.
  unfold navigate.
  induction deltas as [| d rest IH]; intros month year Hm Hd; cbn [fold_left fold_right].
  - cbn [fst snd]. lia.
  - inversion Hd as [| ? ? Hd1 Hrest]; subst. cbn [fst snd].
    pose proof (changeMonth_count month year d Hm Hd1) as C.
    pose proof (changeMonth_range month year d) as R.
    destruct (changeMonth month year d) as [m1 y1] eqn:E. cbn [fst snd] in *.
    destruct (IH m1 y1 R Hrest) as [I1 I2]. split; [lia | exact I2].
Qed.

(** X13: counting months from year 0, every sequence of +1 and -1 steps
    from a month in 0..11 moves the count [12 * year + month] by exactly the
    sum of the deltas, and leaves the month in 0..11. *)
Theorem navigate_counts_months (deltas : list Z) (month year : Z) :
  0 <= month <= 11 ->
  Forall (fun delta => delta = 1 \/ delta = -1) deltas ->
  12 * snd (navigate (month, year) deltas) + fst (navigate (month, year) deltas)
  = 12 * year + month + fold_right Z.add 0 deltas /\
  0 <= fst (navigate (month, year) deltas) <= 11.
Proof.
  revert month year. unfold navigate.
  induction deltas as [| d rest IH]; intros month year Hm Hd; cbn [fold_left fold_right].
  - cbn [fst snd]. lia.
  - inversion Hd as [| ? ? Hd1 Hrest]; subst. cbn [fst snd].
    pose proof (changeMonth_count month year d Hm Hd1) as C.
    pose proof (changeMonth_range month year d) as R.
    destruct (changeMonth month year d) as [m1 y1] eqn:E. cbn [fst snd] in *.
    destruct (IH m1 y1 R Hrest) as [I1 I2]. split; [lia | exact I2].
Qed.

Lemma navigate_counts_months_witness :
  0 <= 10 <= 11 /\
  Forall (fun delta => delta = 1 \/ delta = -1) [1; 1; 1; -1] /\
  12 * snd (navigate (10, 2026) [1; 1; 1; -1]) + fst (navigate (10, 2026) [1; 1; 1; -1])
  = 12 * 2026 + 10 + fold_right Z.add 0 [1; 1; 1; -1].
Proof.
  assert (Hm : 0 <= 10 <= 11) by lia.
  assert (Hd : Forall (fun delta => delta = 1 \/ delta = -1) [1; 1; 1; -1])
    by (repeat (constructor; [auto |]); constructor).
  split; [exact Hm |]. split; [exact Hd |].
  exact (proj1 (navigate_counts_months [1; 1; 1; -1] 10 2026 Hm Hd)).
Defined.

(** X14: from a month in 0..11, a step and the opposite step return to the
    same month and year, and twelve steps forward give the same month of
    the next year. *)
Theorem changeMonth_round_trip (month year delta : Z) :
  0 <= month <= 11 -> delta = 1 \/ delta = -1 ->
  navigate (month, year) [delta; - delta] = (month, year) /\
  navigate (month, year) (repeat 1 12) = (month, year + 1).
Proof.
  intros Hm Hd.
  assert (G : forall deltas total,
             Forall (fun d => d = 1 \/ d = -1) deltas ->
             fold_right Z.add 0 deltas = 12 * total ->
             navigate (month, year) deltas = (month, year + total)).
  { intros deltas total F S.
    destruct (navigate_count deltas month year Hm F) as [C R].
    destruct (navigate (month, year) deltas) as [m1 y1]. cbn [fst snd] in *.
    f_equal; lia. }
  split.
  - replace (month, year) with (month, year + 0) at 2 by (f_equal; lia).
    apply G.
    + destruct Hd as [-> | ->]; cbn [Z.opp];
        repeat (constructor; [auto |]); constructor.
    + cbn [fold_right]. lia.
  - apply G.
    + cbn [repeat]. repeat (constructor; [auto |]); constructor.
    + reflexivity.
Qed.

Lemma changeMonth_round_trip_witness :
  0 <= 11 <= 11 /\ (1 = 1 \/ 1 = -1) /\
  navigate (11, 2026) [1; - 1] = (11, 2026).
Proof.
  assert (Hm : 0 <= 11 <= 11) by lia.
  assert (Hd : 1 = 1 \/ 1 = -1) by (left; reflexivity).
  split; [exact Hm |]. split; [exact Hd |].
  exact (proj1 (changeMonth_round_trip 11 2026 1 Hm Hd)).
Defined.

(** X15: [getMonthName] yields a name exactly for the indices 0..11, and
    yields one for the month reached by any sequence of navigation steps,
    whatever their deltas, as soon as one step has been taken. *)
Theorem getMonthName_defined (monthIndex : Z) :
  (getMonthName monthIndex <> None <-> 0 <= monthIndex <= 11) /\
  (forall year delta deltas,
     getMonthName (fst (navigate (monthIndex, year) (delta :: deltas))) <> None).
Proof.
  assert (D : forall m, getMonthName m <> None <-> 0 <= m <= 11).
  { intros m. unfold getMonthName. destruct (Z.ltb_spec m 0).
    - split; [intros N; exfalso; apply N; reflexivity | lia].
    - split.
      + intros N. apply nth_error_Some in N. cbn in N. lia.
      + intros R. apply nth_error_Some. cbn. lia. }
  split; [apply D |].
  intros year delta deltas. apply D.
  assert (G : forall ds m y, 0 <= m <= 11 -> 0 <= fst (navigate (m, y) ds) <= 11).
  { unfold navigate. induction ds as [| d rest IH]; intros m y R; cbn [fold_left fst snd].
    - exact R.
    - pose proof (changeMonth_range m y d) as R1.
      destruct (changeMonth m y d) as [m1 y1]. apply IH. exact R1. }
  unfold navigate. cbn [fold_left fst snd].
  pose proof (changeMonth_range monthIndex year delta) as R1.
  destruct (changeMonth monthIndex year delta) as [m1 y1].
  apply (G deltas m1 y1 R1).
Qed.

End NavigationExtras.

(** ** The calendar grid: weekdays and layout *)

Section CalendarExtras.
Import Calendar.
Open Scope Z_scope.

Lemma TimeClip_day_of_month (yr month d : Z) :
  validYear yr -> 0 <= month <= 11 -> 1 <= d <= monthLength yr month ->
  TimeClip (MakeDate (MakeDay yr month d) 0) = Some (MakeDate (MakeDay yr month d) 0).
Proof.
  intros Hy Hm Hd.
  pose proof (DayFromYear_range yr Hy) as [R0 R1].
  pose proof (daysBeforeMonth_bounds yr month Hm) as (B0 & B1 & B2).
  pose proof (DaysInYear_step yr) as S1.
  assert (D : -100000000 <= MakeDay yr month d <= 100000000).
  { rewrite MakeDay_small by assumption. lia. }
  unfold TimeClip, MakeDate, msPerDay.
  destruct (Z.leb_spec (Z.abs (MakeDay yr month d * 86400000 + 0)) 8640000000000000);
    [reflexivity | lia].
Qed.

(** The weekday of day [d] of the month, from the weekday of its first
    day. *)
Lemma getDay_of_day (year month d fd : Z) :
  validYear year -> 0 <= month <= 11 ->
  1 <= d <= monthLength (fullYear year) month ->
  firstDayOf year month = Some fd ->
  getDay (newDate year month d) = Some ((fd + d - 1) mod 7).
Proof.
  intros Hy Hm Hd Hfd.
  pose proof (fullYear_valid year Hy) as Hy'.
  unfold firstDayOf, newDate in Hfd. unfold newDate.
  rewrite TimeClip_first_day in Hfd by assumption.
  rewrite TimeClip_day_of_month by assumption.
  cbn [getDay option_map] in *. injection Hfd as <-.
  unfold WeekDay. rewrite !Day_MakeDate.
  rewrite !MakeDay_small by assumption.
  f_equal. Z.div_mod_to_equations. lia.
Qed.

(** X16: for a month in 0..11 of a valid year, every day number the
    rasterizer draws is a day of the month, sits in the column of its own
    weekday (what [getDay] gives for that date), and is filled with the
    accent red when that weekday is Sunday or Saturday and with the selected
    colour otherwise. *)
Theorem renderCalendar_weekday_columns (fontColor : string) (year month : Z)
    (c : DayCell) :
  0 <= month <= 11 -> validYear year ->
  In c (renderCalendar fontColor year month) ->
  1 <= cell_day c <= monthLength (fullYear year) month /\
  getDay (newDate year month (cell_day c)) = Some (cell_col c) /\
  cell_fill c = (if (cell_col c =? 0) || (cell_col c =? 6)
                 then "#e63946"%string else fontColor).
Proof.
  intros Hm Hy Hin.
  destruct (firstDayOf_valid year month Hy Hm) as (fd & Efd & Hfd).
  pose proof (daysInMonthOf_valid year month Hy Hm) as Edim.
  unfold renderCalendar in Hin. rewrite Efd, Edim in Hin.
  apply gridCells_In in Hin. destruct Hin as (Hr & Hc & E & Hfill).
  apply drawsDay_Some in E. destruct E as [Ed Hd].
  split; [exact Hd |]. split; [| exact Hfill].
  rewrite (getDay_of_day year month (cell_day c) fd Hy Hm Hd Efd).
  f_equal. Z.div_mod_to_equations. lia.
Qed.

Lemma renderCalendar_weekday_columns_witness :
  0 <= 10 <= 11 /\ validYear 2026 /\
  In (mkDayCell 2 3 18 "#ffffff") (renderCalendar "#ffffff" 2026 10) /\
  getDay (newDate 2026 10 18) = Some 3.
Proof.
  assert (Hm : 0 <= 10 <= 11) by lia.
  assert (Hy : validYear 2026) by (unfold validYear; lia).
  assert (Hin : In (mkDayCell 2 3 18 "#ffffff") (renderCalendar "#ffffff" 2026 10))
    by (vm_compute; tauto).
  split; [exact Hm |]. split; [exact Hy |]. split; [exact Hin |].
  exact (proj1 (proj2 (renderCalendar_weekday_columns "#ffffff" 2026 10
                         (mkDayCell 2 3 18 "#ffffff") Hm Hy Hin))).
Defined.

Lemma headerLabels_nth (fontColor : string) (index : Z) :
  0 <= index < 7 ->
  exists day,
    nth_error getDayNames (Z.to_nat index) = Some day /\
    nth_error (headerLabels fontColor) (Z.to_nat index)
    = Some (headerLabel fontColor index day).
Proof.
  intros H.
  assert (C : index = 0 \/ index = 1 \/ index = 2 \/ index = 3 \/ index = 4 \/
              index = 5 \/ index = 6) by lia.
  destruct C as [-> | [-> | [-> | [-> | [-> | [-> | ->]]]]]];
    eexists; split; reflexivity.
Qed.

(** X17: every day number drawn (any first weekday, any month length) is
    anchored inside the 1000 by 850 canvas, below the header row, and at the
    same [x] as the header label of its column, which is the label at that
    index of [getDayNames] and has the same weekend colouring. *)
Theorem day_numbers_under_their_labels (fontColor : string)
    (firstDay daysInMonth : option Z) (c : DayCell) :
  In c (gridCells fontColor firstDay daysInMonth) ->
  (0 < dayTextX (cell_col c) < canvasWidth)%Q /\
  (headerY < dayTextY (cell_row c) < canvasHeight)%Q /\
  exists day,
    nth_error getDayNames (Z.to_nat (cell_col c)) = Some day /\
    nth_error (headerLabels fontColor) (Z.to_nat (cell_col c))
    = Some {| label_text := day;
              label_x := dayTextX (cell_col c);
              label_fill := cell_fill c |}.
Proof.
  intros Hin. apply gridCells_In in Hin. destruct Hin as (Hr & Hc & _ & Hfill).
  assert (R : cell_row c = 0 \/ cell_row c = 1 \/ cell_row c = 2 \/ cell_row c = 3 \/
              cell_row c = 4 \/ cell_row c = 5) by lia.
  assert (C : cell_col c = 0 \/ cell_col c = 1 \/ cell_col c = 2 \/ cell_col c = 3 \/
              cell_col c = 4 \/ cell_col c = 5 \/ cell_col c = 6) by lia.
  split; [| split].
  - destruct C as [-> | [-> | [-> | [-> | [-> | [-> | ->]]]]]]; split; reflexivity.
  - destruct R as [-> | [-> | [-> | [-> | [-> | ->]]]]]; split; reflexivity.
  - destruct (headerLabels_nth fontColor (cell_col c) Hc) as (day & E1 & E2).
    exists day. split; [exact E1 |]. rewrite E2. unfold headerLabel, dayTextX.
    rewrite Hfill. reflexivity.
Qed.

Lemma day_numbers_under_their_labels_witness :
  In (mkDayCell 2 3 18 "#ffffff") (gridCells "#ffffff" (Some 0) (Some 30)) /\
  (0 < dayTextX 3 < canvasWidth)%Q /\ (headerY < dayTextY 2 < canvasHeight)%Q.
Proof.
  assert (Hin : In (mkDayCell 2 3 18 "#ffffff") (gridCells "#ffffff" (Some 0) (Some 30)))
    by (vm_compute; tauto).
  split; [exact Hin |].
  pose proof (day_numbers_under_their_labels "#ffffff" (Some 0) (Some 30)
                (mkDayCell 2 3 18 "#ffffff") Hin) as K.
  split; [exact (proj1 K) | exact (proj1 (proj2 K))].
Defined.

End CalendarExtras.

(** ** The filter effect *)

Section FilterExtras.
Import Filter.
Open Scope string_scope.

Lemma findFilter_catalog (f : PhotoFilter) :
  In f PHOTO_FILTERS -> findFilter (filter_value f) = Some f.
Proof.
  intros H. cbn in H.
  destruct H as [<- | [<- | [<- | [<- | []]]]]; reflexivity.
Qed.

Lemma findFilter_Some (selectedFilter : string) (f : PhotoFilter) :
  findFilter selectedFilter = Some f ->
  In f PHOTO_FILTERS /\ filter_value f = selectedFilter.
Proof.
  unfold findFilter. intros H. apply find_some in H. destruct H as [I E].
  split; [exact I | apply String.eqb_eq; exact E].
Qed.

(** X18: the filter effect writes a data URL to [filteredImage] only for a
    photo, off iOS, for a catalog filter other than "none" that has a style,
    and the data URL is the one the baking canvas returned. *)
Theorem filterEffect_bakes_only_when (userImage selectedFilter : string)
    (isIOSDevice : bool) (baking : Baking) (timeoutFirst : bool)
    (filteredImage : option string) (dataUrl : string) :
  In (Some dataUrl)
     (filterEffectWrites userImage selectedFilter isIOSDevice baking timeoutFirst
        filteredImage) ->
  userImage <> "" /\ isIOSDevice = false /\ selectedFilter <> "none" /\
  baking = BakeDataUrl dataUrl /\
  exists f style,
    In f PHOTO_FILTERS /\ filter_value f = selectedFilter /\
    filter_style f = Some style /\ style <> "".
Proof.
  unfold filterEffectWrites.
  destruct (String.eqb_spec userImage "") as [U | U]; [intros []|].
  destruct (findFilter selectedFilter) as [f |] eqn:F;
    [| intros [H | []]; discriminate H].
  destruct (String.eqb_spec selectedFilter "none") as [N | N];
    [intros [H | []]; discriminate H |].
  destruct isIOSDevice; [intros [H | []]; discriminate H |].
  intros H.
  assert (B : In (Some dataUrl) (bakingWrites f baking)).
  { destruct timeoutFirst; apply in_app_or in H; destruct H as [H | H];
      try exact H; destruct (truthy filteredImage); cbn in H;
      try contradiction; destruct H as [H | []]; discriminate H. }
  clear H. unfold bakingWrites in B.
  destruct baking as [| | | d |]; try (destruct B as [B | []]; discriminate B);
    try contradiction.
  destruct (filter_style f) as [style |] eqn:S;
    [| destruct B as [B | []]; discriminate B].
  destruct (String.eqb_spec style "") as [Z | Z];
    [destruct B as [B | []]; discriminate B |].
  destruct B as [B | []]. injection B as ->.
  destruct (findFilter_Some _ _ F) as [I V].
  repeat split; try assumption. exists f, style. repeat split; assumption.
Qed.

Lemma filterEffect_bakes_only_when_witness :
  In (Some "data:image/jpeg;base64,AA")
     (filterEffectWrites "blob:photo" "juno" false
        (BakeDataUrl "data:image/jpeg;base64,AA") false None) /\
  "juno" <> "none".
Proof.
  assert (H : In (Some "data:image/jpeg;base64,AA")
                (filterEffectWrites "blob:photo" "juno" false
                   (BakeDataUrl "data:image/jpeg;base64,AA") false None))
    by (vm_compute; tauto).
  split; [exact H |].
  exact (proj1 (proj2 (proj2 (filterEffect_bakes_only_when _ _ _ _ _ _ _ H)))).
Defined.

(** X19: when baking returns a data URL for a photo, off iOS, with a
    catalog filter other than "none", [filteredImage] ends as that data URL
    if the 3 s timer fired before the image callbacks or if [filteredImage]
    was already non-empty when the effect ran; otherwise the timer, which
    tests the [filteredImage] of its closure, writes null after the baked
    data URL and [filteredImage] ends null. *)
Theorem filterEffect_timer_race (userImage : string) (f : PhotoFilter)
    (dataUrl : string) (timeoutFirst : bool) (filteredImage : option string) :
  userImage <> "" -> In f PHOTO_FILTERS -> filter_value f <> "none" ->
  filterEffect userImage (filter_value f) false (BakeDataUrl dataUrl) timeoutFirst
    filteredImage
  = if timeoutFirst || truthy filteredImage then Some dataUrl else None.
Proof.
  intros U I N. unfold filterEffect, filterEffectWrites.
  apply String.eqb_neq in U. rewrite U.
  rewrite (findFilter_catalog f I).
  apply String.eqb_neq in N. rewrite N.
  assert (S : bakingWrites f (BakeDataUrl dataUrl) = [Some dataUrl]).
  { cbn in I. destruct I as [<- | [<- | [<- | [<- | []]]]];
      try reflexivity. discriminate N. }
  rewrite S. destruct timeoutFirst, (truthy filteredImage); reflexivity.
Qed.

Lemma filterEffect_timer_race_witness :
  "blob:photo" <> "" /\
  filterEffect "blob:photo" "juno" false (BakeDataUrl "data:image/jpeg;base64,AA")
    false None = None.
Proof.
  assert (U : "blob:photo" <> "") by discriminate.
  split; [exact U |].
  exact (filterEffect_timer_race "blob:photo"
           {| filter_name := "Juno"; filter_value := "juno";
              filter_style :=
                Some "sepia(0.35) contrast(1.15) brightness(1.15) saturate(1.8)" |}
           "data:image/jpeg;base64,AA" false None U
           (or_intror (or_intror (or_intror (or_introl eq_refl))))
           ltac:(discriminate)).
Defined.

(** X20: on iOS a run of the effect for a photo sets [filteredImage] to
    null, once, whatever the filter and the baking; and for every catalog
    filter other than "none" the canvas container and the photo node both
    carry that filter's style, which is not empty. *)
Theorem ios_filters_by_style (userImage : string) (f : PhotoFilter)
    (baking : Baking) (timeoutFirst : bool) (filteredImage : option string) :
  userImage <> "" -> In f PHOTO_FILTERS -> filter_value f <> "none" ->
  filterEffectWrites userImage (filter_value f) true baking timeoutFirst filteredImage
    = [None] /\
  containerFilter true (filter_value f) = filter_style f /\
  photoNodeFilter true filteredImage (filter_value f) = filter_style f /\
  filter_style f <> None.
Proof.
  intros U I N. unfold filterEffectWrites, containerFilter, currentFilterStyle,
    photoNodeFilter.
  apply String.eqb_neq in U. rewrite U. rewrite (findFilter_catalog f I).
  apply String.eqb_neq in N. rewrite N. cbn [orb].
  repeat split; try reflexivity.
  cbn in I. destruct I as [<- | [<- | [<- | [<- | []]]]]; discriminate.
Qed.

Lemma ios_filters_by_style_witness :
  "blob:photo" <> "" /\
  containerFilter true "gingham"
  = Some "brightness(1.05) hue-rotate(-10deg) sepia(0.2)".
Proof.
  assert (U : "blob:photo" <> "") by discriminate.
  split; [exact U |].
  exact (proj1 (proj2 (ios_filters_by_style "blob:photo"
           {| filter_name := "Gingham"; filter_value := "gingham";
              filter_style := Some "brightness(1.05) hue-rotate(-10deg) sepia(0.2)" |}
           BakeNeverLoads false None U
           (or_intror (or_intror (or_introl eq_refl)))
           ltac:(discriminate)))).
Defined.

(** X21: off iOS the photo node carries a filter style exactly when
    [filteredImage] is null or empty and the selected filter is a catalog
    filter other than "none", and the style is then that filter's: a baked
    raster is never filtered a second time on screen. *)
Theorem photoNodeFilter_off_ios (filteredImage : option string)
    (selectedFilter style : string) :
  photoNodeFilter false filteredImage selectedFilter = Some style <->
  truthy filteredImage = false /\ selectedFilter <> "none" /\
  exists f, In f PHOTO_FILTERS /\ filter_value f = selectedFilter /\
            filter_style f = Some style.
Proof.
  unfold photoNodeFilter. cbn [orb]. split.
  - destruct (truthy filteredImage); cbn [negb andb]; [discriminate |].
    destruct (String.eqb_spec selectedFilter "none") as [N | N];
      cbn [negb]; [discriminate |].
    destruct (findFilter selectedFilter) as [f |] eqn:F; [| discriminate].
    intros S. destruct (findFilter_Some _ _ F) as [I V].
    repeat split; try assumption. exists f. repeat split; assumption.
  - intros (T & N & f & I & V & S). rewrite T. apply String.eqb_neq in N.
    rewrite N. cbn [negb andb]. subst selectedFilter.
    rewrite (findFilter_catalog f I). exact S.
Qed.

End FilterExtras.

(** ** The export pipeline: outcomes *)

Section CompositorExtras.
Import Geometry Compositor.
Open Scope Q_scope.

Lemma ensureImageLoaded_pending (img : ImageElement) :
  ensureImageLoaded img = LoadPending <-> stuck img.
Proof.
  unfold ensureImageLoaded, stuck. split.
  - destruct (img_complete img); cbn [andb].
    + destruct (Z.ltb_spec 0 (img_naturalWidth img)); [discriminate |].
      destruct (img_event img); try discriminate.
      destruct (img_completeAtTimeout img); [| discriminate].
      intros _. repeat split. right. lia.
    + destruct (img_event img); try discriminate.
      destruct (img_completeAtTimeout img); [| discriminate].
      intros _. repeat split. left. reflexivity.
  - intros (E & T & C). rewrite E, T. destruct C as [C | C].
    + rewrite C. reflexivity.
    + destruct (Z.ltb_spec 0 (img_naturalWidth img)); [lia |].
      rewrite andb_false_r. reflexivity.
Qed.

(** How a manual drawing can end. *)
Lemma manualDrawing_outcome (env : Env) (fb : string) (fw fh : Q) :
  match snd (manualDrawing env fb fw fh) with
  | Resolved url =>
      url = fb \/
      (canvasEncode env = Some url /\ (10000 <= Z.of_nat (String.length url))%Z)
  | Rejected _ => False
  | Pending =>
      exists img, (displayImage env = Some img \/ calendarImage env = Some img) /\
                  ensureImageLoaded img = LoadPending
  end.
Proof.
  assert (E : match snd (encodeCanvas env fb) with
              | Resolved url =>
                  url = fb \/
                  (canvasEncode env = Some url /\
                   (10000 <= Z.of_nat (String.length url))%Z)
              | _ => False
              end).
  { unfold encodeCanvas, after, done. destruct (canvasEncode env) as [hq |]; cbn [snd].
    - destruct (Z.ltb_spec (Z.of_nat (String.length hq)) 10000); cbn [snd];
        [left; reflexivity | right; split; [reflexivity | assumption]].
    - left. reflexivity. }
  unfold manualDrawing, drawCalendar, after, done.
  destruct (displayImage env) as [photo |]; [| left; reflexivity].
  destruct (ensureImageLoaded photo) eqn:P; cbn [snd].
  - destruct (drawPhotoThrows env); cbn [snd]; [left; reflexivity |].
    destruct (calendarImage env) as [cal |];
      [| destruct (snd (encodeCanvas env fb)); [exact E | destruct E | destruct E]].
    destruct (ensureImageLoaded cal) eqn:C; cbn [snd].
    + destruct (drawCalendarThrows env); [left; reflexivity |].
      destruct (snd (encodeCanvas env fb)); [exact E | destruct E | destruct E].
    + left. reflexivity.
    + exists cal. split; [right; reflexivity | exact C].
  - left. reflexivity.
  - exists photo. split; [left; reflexivity | exact P].
Qed.

Lemma retries_cases (env : Env) :
  retries env = true <->
  directCapture env = None \/
  (touchPlatform env = true /\
   (sizingThrows env = true \/
    (contextAvailable env = true /\ fillThrows env = true))).
Proof.
  unfold retries. destruct (directCapture env) as [dataUrl |].
  - rewrite andb_true_iff, orb_true_iff, andb_true_iff.
    split; [intros H; right; exact H | intros [H | H]; [discriminate H | exact H]].
  - split; [intros _; left; reflexivity | reflexivity].
Qed.

(** When the outer [catch] runs, the retry decides. *)
Lemma captureCanvas_retries (env : Env) (ratio : Q) :
  retries env = true ->
  snd (captureCanvas env ratio) =
  match simpleCapture env with
  | Some simpleDataUrl => Resolved simpleDataUrl
  | None => Rejected "Failed to export image"
  end.
Proof.
  assert (R : snd (retryCapture env ratio) =
              match simpleCapture env with
              | Some simpleDataUrl => Resolved simpleDataUrl
              | None => Rejected "Failed to export image"
              end)
    by (unfold retryCapture, after, done; destruct (simpleCapture env); reflexivity).
  unfold retries, touchPlatform, captureCanvas, after, done.
  destruct (directCapture env) as [dataUrl |]; cbn [snd]; [| intros _; exact R].
  destruct (isMobile env || isIOSDevice env || isAndroidDevice env); cbn [negb andb];
    [| discriminate].
  destruct (sizingThrows env); cbn [orb snd]; [intros _; exact R |].
  destruct (offscreenSize (stageWidth env) (stageHeight env) ratio) as [fw fh].
  cbn [snd]. destruct (contextAvailable env); cbn [negb andb]; [| discriminate].
  destruct (fillThrows env); cbn [snd]; [intros _; exact R | discriminate].
Qed.

(** How [captureCanvas] can end. *)
Lemma captureCanvas_outcome (env : Env) (ratio : Q) :
  match snd (captureCanvas env ratio) with
  | Resolved url =>
      directCapture env = Some url \/
      (retries env = true /\ simpleCapture env = Some url) \/
      (directCapture env <> None /\ touchPlatform env = true /\
       sizingThrows env = false /\ fillThrows env = false /\
       canvasEncode env = Some url /\ (10000 <= Z.of_nat (String.length url))%Z)
  | Rejected message =>
      retries env = true /\ simpleCapture env = None /\
      message = "Failed to export image"%string
  | Pending =>
      directCapture env <> None /\ touchPlatform env = true /\
      contextAvailable env = true /\
      exists img, (displayImage env = Some img \/ calendarImage env = Some img) /\
                  stuck img
  end.
Proof.
  destruct (retries env) eqn:R.
  { rewrite (captureCanvas_retries env ratio R).
    destruct (simpleCapture env) as [simple |].
    - right. left. split; reflexivity.
    - repeat split; reflexivity. }
  revert R. unfold retries, captureCanvas, after, done, touchPlatform.
  destruct (directCapture env) as [dataUrl |]; cbn [snd]; [| discriminate].
  destruct (isMobile env || isIOSDevice env || isAndroidDevice env);
    cbn [negb andb snd]; [| intros _; left; reflexivity].
  destruct (sizingThrows env); cbn [orb]; [discriminate |].
  destruct (offscreenSize (stageWidth env) (stageHeight env) ratio) as [fw fh].
  cbn [snd]. destruct (contextAvailable env); cbn [negb andb snd];
    [| intros _; left; reflexivity].
  destruct (fillThrows env); [discriminate |]. intros _. cbn [snd].
  pose proof (manualDrawing_outcome env dataUrl fw fh) as M.
  destruct (snd (manualDrawing env dataUrl fw fh)) as [url | m |].
  - destruct M as [-> | [C L]]; [left; reflexivity |].
    right. right. repeat split; try assumption. discriminate.
  - destruct M.
  - destruct M as (img & I & P). repeat split; try discriminate.
    exists img. split; [exact I | apply ensureImageLoaded_pending; exact P].
Qed.

Lemma getCleanRender_settled (env : Env) (st : State) :
  snd (getCleanRender env st) =
  if negb (stagePresent env) then Rejected "Stage reference is null"
  else snd (captureCanvas env (exportPixelRatio (isMobile env) (screenWidth env))).
Proof.
  unfold getCleanRender. destruct (negb (stagePresent env)); [reflexivity |].
  destruct (captureCanvas env (exportPixelRatio (isMobile env) (screenWidth env)))
    as [steps captured].
  destruct captured; reflexivity.
Qed.

(** X22: the export rejects in two cases only: the stage reference is
    missing, with the message "Stage reference is null", or the stage is
    there, the outer [catch] of the capture runs (the direct capture throws
    or, on a touch platform, the canvas set-up after it does) and the
    retry at the reduced ratio throws too, with the message "Failed to
    export image". *)
Theorem getCleanRender_rejects_iff (env : Env) (st : State) (message : string) :
  snd (getCleanRender env st) = Rejected message <->
  (stagePresent env = false /\ message = "Stage reference is null"%string) \/
  (stagePresent env = true /\
   (directCapture env = None \/
    (touchPlatform env = true /\
     (sizingThrows env = true \/
      (contextAvailable env = true /\ fillThrows env = true)))) /\
   simpleCapture env = None /\
   message = "Failed to export image"%string).
Proof.
  rewrite getCleanRender_settled.
  pose proof (captureCanvas_outcome env
                (exportPixelRatio (isMobile env) (screenWidth env))) as O.
  destruct (stagePresent env); cbn [negb]; split.
  - intros E. rewrite E in O. right. destruct O as (R & S & M).
    split; [reflexivity |]. split; [| split; assumption].
    apply retries_cases. exact R.
  - intros [[F _] | (_ & R & S & ->)]; [discriminate F |].
    apply retries_cases in R.
    rewrite (captureCanvas_retries env _ R), S. reflexivity.
  - intros E. injection E as <-. left. split; reflexivity.
  - intros [[_ ->] | (F & _)]; [reflexivity | discriminate F].
Qed.

(** X23: the promise of the export stays pending only on a touch platform,
    after a successful direct capture, with a drawing context, when the
    photo or the calendar image awaited by the manual composite never
    settles: it fires neither load nor error and is complete when the 3 s
    timer looks, while not complete with a natural width at the start. *)
Theorem getCleanRender_pending_only_if (env : Env) (st : State) :
  snd (getCleanRender env st) = Pending ->
  stagePresent env = true /\ directCapture env <> None /\
  touchPlatform env = true /\ contextAvailable env = true /\
  exists img, (displayImage env = Some img \/ calendarImage env = Some img) /\
              stuck img.
Proof.
  rewrite getCleanRender_settled.
  pose proof (captureCanvas_outcome env
                (exportPixelRatio (isMobile env) (screenWidth env))) as O.
  destruct (stagePresent env); cbn [negb]; [| discriminate].
  intros E. rewrite E in O. split; [reflexivity | exact O].
Qed.

(** X24: a resolved export returns the direct capture, or the capture of
    the retry when the outer [catch] ran (the direct capture threw or, on
    a touch platform, the canvas set-up after it did), or, on a touch
    platform, the encoded manual composite, which is then at least 10000
    long. *)
Theorem getCleanRender_resolves_with (env : Env) (st : State) (url : string) :
  snd (getCleanRender env st) = Resolved url ->
  directCapture env = Some url \/
  ((directCapture env = None \/
    (touchPlatform env = true /\
     (sizingThrows env = true \/
      (contextAvailable env = true /\ fillThrows env = true)))) /\
   simpleCapture env = Some url) \/
  (directCapture env <> None /\ touchPlatform env = true /\
   sizingThrows env = false /\ fillThrows env = false /\
   canvasEncode env = Some url /\ (10000 <= Z.of_nat (String.length url))%Z).
Proof.
  rewrite getCleanRender_settled.
  pose proof (captureCanvas_outcome env
                (exportPixelRatio (isMobile env) (screenWidth env))) as O.
  destruct (stagePresent env); cbn [negb]; [| discriminate].
  intros E. rewrite E in O.
  destruct O as [D | [[R S] | (D & T & C)]].
  - left. exact D.
  - right. left. split; [apply retries_cases; exact R | exact S].
  - right. right. exact (conj D (conj T C)).
Qed.

(** X25: off the touch platforms (not mobile, not iOS, not Android), with
    the stage present and a direct capture that succeeds, the export
    resolves with the direct capture after the 300 ms timer and one stage
    capture at ratio 3: no off-screen canvas is made. *)
Theorem getCleanRender_desktop (env : Env) (selected : bool) (dataUrl : string) :
  stagePresent env = true -> touchPlatform env = false ->
  directCapture env = Some dataUrl ->
  getCleanRender env (mkState selected []) =
  (mkState selected
     ((if selected then [EvSetIsSelected false] else [])
      ++ [EvTimeout 300; EvStageToDataURL 3]
      ++ (if selected then [EvSetIsSelected true] else [])),
   Resolved dataUrl).
Proof.
  intros S T D. unfold getCleanRender, captureCanvas, after, done.
  unfold touchPlatform in T. rewrite S, D, T.
  assert (M : isMobile env = false).
  { destruct (isMobile env); [discriminate T | reflexivity]. }
  rewrite M. destruct selected; reflexivity.
Qed.

Lemma getCleanRender_rejects_iff_witness :
  snd (getCleanRender (desktopEnv None) (mkState true []))
  = Rejected "Failed to export image" /\
  snd (getCleanRender (canvasFailsEnv None) (mkState true []))
  = Rejected "Failed to export image".
Proof.
  split.
  - exact (proj2 (getCleanRender_rejects_iff (desktopEnv None) (mkState true [])
                    "Failed to export image")
             (or_intror (conj eq_refl (conj (or_introl eq_refl) (conj eq_refl eq_refl))))).
  - exact (proj2 (getCleanRender_rejects_iff (canvasFailsEnv None) (mkState true [])
                    "Failed to export image")
             (or_intror (conj eq_refl
                (conj (or_intror (conj eq_refl (or_introl eq_refl)))
                   (conj eq_refl eq_refl))))).
Defined.

Lemma getCleanRender_pending_only_if_witness :
  snd (getCleanRender stuckEnv (mkState true [])) = Pending /\
  exists img, (displayImage stuckEnv = Some img \/ calendarImage stuckEnv = Some img) /\
              stuck img.
Proof.
  assert (P : snd (getCleanRender stuckEnv (mkState true [])) = Pending) by reflexivity.
  split; [exact P |].
  exact (proj2 (proj2 (proj2 (proj2
           (getCleanRender_pending_only_if stuckEnv (mkState true []) P))))).
Defined.

Lemma getCleanRender_resolves_with_witness :
  snd (getCleanRender (canvasFailsEnv (Some "data:image/png;base64,retry"%string))
         (mkState true []))
  = Resolved "data:image/png;base64,retry" /\
  (directCapture (canvasFailsEnv (Some "data:image/png;base64,retry"%string))
   = Some "data:image/png;base64,retry"%string \/
   ((directCapture (canvasFailsEnv (Some "data:image/png;base64,retry"%string)) = None \/
     (touchPlatform (canvasFailsEnv (Some "data:image/png;base64,retry"%string)) = true /\
      (sizingThrows (canvasFailsEnv (Some "data:image/png;base64,retry"%string)) = true \/
       (contextAvailable (canvasFailsEnv (Some "data:image/png;base64,retry"%string)) = true /\
        fillThrows (canvasFailsEnv (Some "data:image/png;base64,retry"%string)) = true)))) /\
    simpleCapture (canvasFailsEnv (Some "data:image/png;base64,retry"%string))
    = Some "data:image/png;base64,retry"%string) \/
   (directCapture (canvasFailsEnv (Some "data:image/png;base64,retry"%string)) <> None /\
    touchPlatform (canvasFailsEnv (Some "data:image/png;base64,retry"%string)) = true /\
    sizingThrows (canvasFailsEnv (Some "data:image/png;base64,retry"%string)) = false /\
    fillThrows (canvasFailsEnv (Some "data:image/png;base64,retry"%string)) = false /\
    canvasEncode (canvasFailsEnv (Some "data:image/png;base64,retry"%string))
    = Some "data:image/png;base64,retry"%string /\
    (10000 <= Z.of_nat (String.length "data:image/png;base64,retry"))%Z)).
Proof.
  assert (R : snd (getCleanRender
                     (canvasFailsEnv (Some "data:image/png;base64,retry"%string))
                     (mkState true []))
              = Resolved "data:image/png;base64,retry") by reflexivity.
  split; [exact R |].
  exact (getCleanRender_resolves_with
           (canvasFailsEnv (Some "data:image/png;base64,retry"%string))
           (mkState true []) _ R).
Defined.

Lemma getCleanRender_desktop_witness :
  stagePresent (desktopEnv (Some "data:image/png;base64,direct"%string)) = true /\
  touchPlatform (desktopEnv (Some "data:image/png;base64,direct"%string)) = false /\
  getCleanRender (desktopEnv (Some "data:image/png;base64,direct"%string))
    (mkState true []) =
  (mkState true
     [EvSetIsSelected false; EvTimeout 300; EvStageToDataURL 3; EvSetIsSelected true],
   Resolved "data:image/png;base64,direct").
Proof.
  split; [reflexivity |]. split; [reflexivity |].
  exact (getCleanRender_desktop (desktopEnv (Some "data:image/png;base64,direct"%string))
           true "data:image/png;base64,direct" eq_refl eq_refl eq_refl).
Defined.

(** X26: the export ratio is 3 off mobile and 3, 6, 7 or 8 on mobile, where
    it never grows with the screen width; the ratio of the retry,
    [min 4 ratio], exceeds neither 4 nor the export ratio. *)
Theorem exportPixelRatio_steps (mobile : bool) (w1 w2 : Q) :
  exportPixelRatio false w1 = 3 /\
  (exportPixelRatio mobile w1 = 3 \/ exportPixelRatio mobile w1 = 6 \/
   exportPixelRatio mobile w1 = 7 \/ exportPixelRatio mobile w1 = 8) /\
  (w1 <= w2 -> exportPixelRatio mobile w2 <= exportPixelRatio mobile w1) /\
  Qmin 4 (exportPixelRatio mobile w1) <= 4 /\
  Qmin 4 (exportPixelRatio mobile w1) <= exportPixelRatio mobile w1.
Proof.
  split; [reflexivity |].
  split; [| split; [| split; [apply Q.le_min_l | apply Q.le_min_r]]].
  - unfold exportPixelRatio. destruct mobile; [| auto].
    destruct (Qleb w1 375); [auto |].
    destruct (Qleb w1 428); [auto |].
    destruct (Qleb w1 768); auto.
  - intros L. unfold exportPixelRatio, Qleb. destruct mobile; [| lra].
    destruct (Qltb_cases 375 w1) as [[E1 H1] | [E1 H1]];
      destruct (Qltb_cases 428 w1) as [[E2 H2] | [E2 H2]];
      destruct (Qltb_cases 768 w1) as [[E3 H3] | [E3 H3]];
      destruct (Qltb_cases 375 w2) as [[F1 K1] | [F1 K1]];
      destruct (Qltb_cases 428 w2) as [[F2 K2] | [F2 K2]];
      destruct (Qltb_cases 768 w2) as [[F3 K3] | [F3 K3]];
      rewrite E1, E2, E3, F1, F2, F3; cbn [negb]; lra.
Qed.

Lemma exportPixelRatio_steps_witness :
  390 <= 800 /\ exportPixelRatio true 800 <= exportPixelRatio true 390.
Proof.
  assert (L : 390 <= 800) by (vm_compute; discriminate).
  split; [exact L |].
  exact (proj1 (proj2 (proj2 (exportPixelRatio_steps true 390 800))) L).
Defined.

Lemma offscreenSize_uniform (stageWidth stageHeight ratio : Q) :
  0 < stageWidth -> 0 < stageHeight -> 0 < ratio ->
  exists c, 0 < c /\
    fst (offscreenSize stageWidth stageHeight ratio) / stageWidth == c /\
    snd (offscreenSize stageWidth stageHeight ratio) / stageHeight == c /\
    fst (offscreenSize stageWidth stageHeight ratio) == stageWidth * c /\
    snd (offscreenSize stageWidth stageHeight ratio) == stageHeight * c.
Proof.
  intros SW SH R.
  assert (TW : 0 < stageWidth * ratio) by (apply Qmult_lt_0_compat; assumption).
  assert (TH : 0 < stageHeight * ratio) by (apply Qmult_lt_0_compat; assumption).
  unfold offscreenSize.
  destruct (Qltb 4096 (stageWidth * ratio) || Qltb 4096 (stageHeight * ratio));
    cbn [fst snd].
  - set (f := Qmin (4096 / (stageWidth * ratio)) (4096 / (stageHeight * ratio))).
    assert (F : 0 < f)
      by (apply Qmin_positive; apply Qdiv_positive; try assumption; reflexivity).
    exists (ratio * f). split; [apply Qmult_lt_0_compat; assumption |].
    repeat split; try ring; field; lra.
  - exists ratio. split; [exact R |]. repeat split; try ring; field; lra.
Qed.

Lemma drawCalendar_draws (env : Env) (fb : string) (scaleX scaleY x y w h : Q) :
  In (EvDrawCalendar x y w h) (fst (drawCalendar env fb scaleX scaleY)) ->
  x = attr_x (calendarAttrs env) * scaleX /\ y = attr_y (calendarAttrs env) * scaleY /\
  w = attr_width (calendarAttrs env) * scaleX /\
  h = attr_height (calendarAttrs env) * scaleY.
Proof.
  assert (E : ~ In (EvDrawCalendar x y w h) (fst (encodeCanvas env fb))).
  { unfold encodeCanvas, after, done. cbn [fst app]. intros [K | K]; [discriminate K |].
    destruct (canvasEncode env) as [hq |];
      [destruct (Z.of_nat (String.length hq) <? 10000)%Z |]; destruct K. }
  unfold drawCalendar, after, done.
  destruct (calendarImage env) as [cal |]; [| intros K; destruct (E K)].
  destruct (ensureImageLoaded cal); cbn [fst];
    [| intros K; destruct K | intros K; destruct K].
  cbn [app]. intros [K | K].
  - injection K as <- <- <- <-. repeat split; reflexivity.
  - destruct (drawCalendarThrows env); [destruct K | destruct (E K)].
Qed.

Lemma captureCanvas_draws (env : Env) (ratio x y w h : Q) :
  In (EvDrawCalendar x y w h) (fst (captureCanvas env ratio)) ->
  let fw := fst (offscreenSize (stageWidth env) (stageHeight env) ratio) in
  let fh := snd (offscreenSize (stageWidth env) (stageHeight env) ratio) in
  x = attr_x (calendarAttrs env) * (fw / stageWidth env) /\
  y = attr_y (calendarAttrs env) * (fh / stageHeight env) /\
  w = attr_width (calendarAttrs env) * (fw / stageWidth env) /\
  h = attr_height (calendarAttrs env) * (fh / stageHeight env).
Proof.
  assert (N : ~ In (EvDrawCalendar x y w h) (fst (retryCapture env ratio))).
  { unfold retryCapture, after, done.
    destruct (simpleCapture env); cbn; intros [K | []]; discriminate K. }
  cbv zeta. unfold captureCanvas, after, done. cbn [fst app].
  intros [K | K]; [discriminate K |].
  destruct (directCapture env) as [dataUrl |]; [| destruct (N K)].
  destruct (negb (isMobile env || isIOSDevice env || isAndroidDevice env));
    [destruct K |].
  destruct (sizingThrows env); [destruct (N K) |].
  destruct (offscreenSize (stageWidth env) (stageHeight env) ratio) as [fw fh].
  cbn [fst snd app] in *. destruct K as [K | K]; [discriminate K |].
  destruct (negb (contextAvailable env)); [destruct K |].
  destruct (fillThrows env); [destruct (N K) |].
  cbn [fst app] in K. destruct K as [K | K]; [discriminate K |].
  unfold manualDrawing, after, done in K.
  destruct (displayImage env) as [photo |]; [| destruct K].
  destruct (ensureImageLoaded photo); cbn [fst] in K; try (destruct K; fail).
  cbn [app] in K. destruct K as [K | K]; [discriminate K |].
  destruct (drawPhotoThrows env); [destruct K |].
  exact (drawCalendar_draws env dataUrl _ _ x y w h K).
Qed.

(** X27: when the manual composite draws the calendar, for a stage of
    positive dimensions, the photo and the calendar are scaled by one and
    the same positive factor in both directions, so the drawn calendar keeps
    the overlay's proportions, and an overlay that lies within the stage is
    drawn within the final canvas size. *)
Theorem calendar_drawn_within_canvas (env : Env) (selected : bool) (x y w h : Q) :
  0 < stageWidth env -> 0 < stageHeight env ->
  In (EvDrawCalendar x y w h) (log (fst (getCleanRender env (mkState selected [])))) ->
  let ratio := exportPixelRatio (isMobile env) (screenWidth env) in
  let fw := fst (offscreenSize (stageWidth env) (stageHeight env) ratio) in
  let fh := snd (offscreenSize (stageWidth env) (stageHeight env) ratio) in
  fw / stageWidth env == fh / stageHeight env /\
  w * attr_height (calendarAttrs env) == h * attr_width (calendarAttrs env) /\
  (0 <= attr_x (calendarAttrs env) -> 0 <= attr_y (calendarAttrs env) ->
   0 <= attr_width (calendarAttrs env) -> 0 <= attr_height (calendarAttrs env) ->
   attr_x (calendarAttrs env) + attr_width (calendarAttrs env) <= stageWidth env ->
   attr_y (calendarAttrs env) + attr_height (calendarAttrs env) <= stageHeight env ->
   0 <= x /\ 0 <= y /\ x + w <= fw /\ y + h <= fh).
Proof.
  intros SW SH Hin. cbv zeta.
  set (ratio := exportPixelRatio (isMobile env) (screenWidth env)).
  pose proof (exportPixelRatio_positive (isMobile env) (screenWidth env)) as R.
  fold ratio in R.
  assert (K : In (EvDrawCalendar x y w h) (fst (captureCanvas env ratio))).
  { unfold getCleanRender in Hin. fold ratio in Hin.
    destruct (negb (stagePresent env)); [destruct Hin |].
    destruct (captureCanvas env ratio) as [steps captured]. cbn [fst].
    destruct selected, captured;
      cbn [fst log isSelected record setIsSelected app] in Hin;
      repeat match goal with
             | J : In _ (_ :: _) |- _ => destruct J as [J | J]; [discriminate J |]
             | J : In _ (_ ++ _) |- _ =>
                 apply in_app_or in J; destruct J as [J | J]; [assumption |]
             | J : In _ [] |- _ => destruct J
             end;
      try assumption. }
  destruct (captureCanvas_draws env ratio x y w h K) as (-> & -> & -> & ->).
  destruct (offscreenSize_uniform (stageWidth env) (stageHeight env) ratio SW SH R)
    as (c & C & EX & EY & FX & FY).
  split; [rewrite EX, EY; reflexivity |].
  split; [rewrite EX, EY; ring |].
  intros AX AY AW AH AR AB. rewrite EX, EY, FX, FY.
  repeat split; nra.
Qed.

Lemma calendar_drawn_within_canvas_witness :
  0 < stageWidth phoneEnv /\ 0 < stageHeight phoneEnv /\
  fst (offscreenSize (stageWidth phoneEnv) (stageHeight phoneEnv)
         (exportPixelRatio (isMobile phoneEnv) (screenWidth phoneEnv)))
    / stageWidth phoneEnv
  == snd (offscreenSize (stageWidth phoneEnv) (stageHeight phoneEnv)
            (exportPixelRatio (isMobile phoneEnv) (screenWidth phoneEnv)))
       / stageHeight phoneEnv.
Proof.
  assert (SW : 0 < stageWidth phoneEnv) by reflexivity.
  assert (SH : 0 < stageHeight phoneEnv) by reflexivity.
  split; [exact SW |]. split; [exact SH |].
  refine (proj1 (calendar_drawn_within_canvas phoneEnv true
                   (attr_x (calendarAttrs phoneEnv) * (2593.5 / 370.5))
                   (attr_y (calendarAttrs phoneEnv) * (1945.125 / 277.875))
                   (attr_width (calendarAttrs phoneEnv) * (2593.5 / 370.5))
                   (attr_height (calendarAttrs phoneEnv) * (1945.125 / 277.875))
                   SW SH _)).
  vm_compute. tauto.
Defined.

End CompositorExtras.

(** ** The download action *)

Section DownloadExtras.
Import Compositor App.
Open Scope string_scope.

(** X28: after [handleDownload] with both refs set, the Download button is
    enabled again ([isDownloading] false) exactly when the export has
    settled; when it resolved and [saveAs] did not throw, the image is saved
    as photo-calendar.png and no error is shown; when it rejected, or
    [saveAs] threw, nothing is saved and the failure message is shown; while
    it is pending nothing is saved and no error is shown. *)
Theorem handleDownload_outcomes (saveThrows : bool) (env : Env) (editor : State)
    (app : AppState) :
  let settled := snd (getCleanRender env editor) in
  let app' := fst (handleDownload true saveThrows env editor app) in
  snd (handleDownload true saveThrows env editor app) = fst (getCleanRender env editor) /\
  (isDownloading app' = false <-> settled <> Pending) /\
  (forall cleanImage, settled = Resolved cleanImage -> saveThrows = false ->
     saved app' = (saved app ++ [(cleanImage, "photo-calendar.png")])%list /\
     error app' = None) /\
  ((exists message, settled = Rejected message) \/
   ((exists cleanImage, settled = Resolved cleanImage) /\ saveThrows = true) ->
     saved app' = saved app /\
     error app' = Some "Failed to download the image. Please try again.") /\
  (settled = Pending -> saved app' = saved app /\ error app' = None).
Proof.
  cbv zeta. unfold handleDownload. cbn [negb].
  destruct (getCleanRender env editor) as [editor' settled]. cbn [fst snd].
  destruct settled as [url | message |]; [destruct saveThrows | |];
    cbn [fst snd setError setIsDownloading saveAs error isDownloading saved];
    (split; [reflexivity |]).
  - split; [split; [intros _; discriminate | reflexivity] |].
    split; [intros u _ T; discriminate T |].
    split; [intros _; split; reflexivity |].
    intros E; discriminate E.
  - split; [split; [intros _; discriminate | reflexivity] |].
    split; [intros u E _; injection E as ->; split; reflexivity |].
    split; [| intros E; discriminate E].
    intros [[m E] | [_ T]]; [discriminate E | discriminate T].
  - split; [split; [intros _; discriminate | reflexivity] |].
    split; [intros u E; discriminate E |].
    split; [intros _; split; reflexivity |].
    intros E; discriminate E.
  - split; [split; [discriminate | intros N; exfalso; apply N; reflexivity] |].
    split; [intros u E; discriminate E |].
    split; [| intros _; split; reflexivity].
    intros [[m E] | [[u E] _]]; discriminate E.
Qed.

Lemma handleDownload_outcomes_witness :
  snd (getCleanRender phoneEnv (mkState true []))
  = Resolved "data:image/png;base64,direct" /\
  saved (fst (handleDownload true false phoneEnv (mkState true [])
                (mkAppState None false [])))
  = [("data:image/png;base64,direct", "photo-calendar.png")].
Proof.
  assert (R : snd (getCleanRender phoneEnv (mkState true []))
              = Resolved "data:image/png;base64,direct") by reflexivity.
  split; [exact R |].
  exact (proj1 (proj1 (proj2 (proj2
           (handleDownload_outcomes false phoneEnv (mkState true [])
              (mkAppState None false []))))
           "data:image/png;base64,direct" R eq_refl)).
Defined.

(** X29: when [saveAs] does not throw, a download started with both refs
    set ends with the failure message shown exactly when the editor's stage
    reference is missing, or the outer [catch] of the capture runs (the
    direct capture throws or, on a touch platform, the canvas set-up after
    it does) and the retry capture throws too; and a download started
    without the refs only shows the not-ready message: the editor is not
    asked for a render and [isDownloading] is not touched. *)
Theorem handleDownload_error_iff (env : Env) (editor : State) (app : AppState) :
  (error (fst (handleDownload true false env editor app))
   = Some "Failed to download the image. Please try again."
   <-> stagePresent env = false \/
       ((directCapture env = None \/
         (touchPlatform env = true /\
          (sizingThrows env = true \/
           (contextAvailable env = true /\ fillThrows env = true)))) /\
        simpleCapture env = None)) /\
  handleDownload false false env editor app
  = ({| error := Some "The editor isn't ready yet. Please try again.";
        isDownloading := isDownloading app; saved := saved app |}, editor).
Proof.
  split; [| reflexivity].
  assert (G : error (fst (handleDownload true false env editor app))
              = Some "Failed to download the image. Please try again."
              <-> exists message, snd (getCleanRender env editor) = Rejected message).
  { unfold handleDownload. cbn [negb].
    destruct (getCleanRender env editor) as [editor' settled]. cbn [fst snd].
    destruct settled as [url | message |]; cbn; split;
      try discriminate; try (intros [m E]; discriminate E).
    - intros _. exists message. reflexivity.
    - intros _. reflexivity. }
  rewrite G. rewrite getCleanRender_settled.
  pose proof (captureCanvas_outcome env
                (exportPixelRatio (isMobile env) (screenWidth env))) as O.
  destruct (stagePresent env); cbn [negb]; split.
  - intros [message E]. rewrite E in O. destruct O as (R & S & _).
    right. split; [apply retries_cases; exact R | exact S].
  - intros [F | [R S]]; [discriminate F |].
    exists "Failed to export image". apply retries_cases in R.
    rewrite (captureCanvas_retries env _ R), S. reflexivity.
  - intros _. left. reflexivity.
  - intros _. exists "Stage reference is null". reflexivity.
Qed.

End DownloadExtras.
